(** * JourneyConnect server: authentication and request authorization

    A shallow embedding of [server.js]: the configuration read at start-up,
    the [authenticateToken] middleware, the [/api/register] and [/api/login]
    handlers and the two protected handlers that create carpool rides and
    travel plans.

    The three packages the handlers call are outside the repository:
    - [sqlite3] is modelled by the tables of the [CREATE TABLE] statements
      of [server.js] (rowids, the [UNIQUE] constraint on [users.email]);
      input/output faults of the database file are not modelled;
    - [bcryptjs] is an interface ([Bcrypt]) with the one law the handlers
      rely on ([BcryptLaws]);
    - [jsonwebtoken] is modelled by its documented signing and verification
      steps over an abstract compact serialisation ([Jws], [JwsLaws]).

    Request bodies and headers are JavaScript objects whose fields are
    strings or absent. *)

From stdpp Require Import gmap strings list fin_maps sorting.
From Stdlib Require Import ZArith Ascii String.

Local Open Scope Z_scope.
Set Warnings "-register-all".

(** ** JavaScript values as the handlers see them *)

Module Js.

(** A destructured field or a header: a string or [undefined]. *)
Definition value := option string.

(** JavaScript truthiness for a string or [undefined]:
    only the non-empty strings are truthy (this is [!x] negated). *)
Definition truthy (v : value) : bool :=
  match v with
  | None => false
  | Some EmptyString => false
  | Some (String _ _) => true
  end.

(** [s.split(sep)] for a one-character separator: every occurrence of
    [sep] ends a segment; a string with [n] separators has [n+1] segments. *)
Fixpoint split (sep : ascii) (s : string) : list string :=
  match s with
  | EmptyString => [EmptyString]
  | String c s' =>
      if Ascii.eqb c sep then EmptyString :: split sep s'
      else match split sep s' with
           | [] => [String c EmptyString]
           | w :: ws => String c w :: ws
           end
  end.

(** [s.includes(c)] for a character. *)
Fixpoint includes (c : ascii) (s : string) : bool :=
  match s with
  | EmptyString => false
  | String d s' => Ascii.eqb d c || includes c s'
  end.

(** [a && f(a)] on a string or [undefined]: a falsy [a] is the result,
    otherwise [f a]. *)
Definition and_then (a : value) (f : string → value) : value :=
  match a with
  | None => None
  | Some EmptyString => Some EmptyString
  | Some s => f s
  end.

(** [a || d] where [d] is a string. *)
Definition or_else (a : value) (d : string) : string :=
  match a with
  | Some (String c s) => String c s
  | _ => d
  end.

(** The string of a value that a guard has shown to be one. *)
Definition str (v : value) : string := default EmptyString v.

(** The JSON documents the handlers send with [res.json]. *)
Inductive json :=
| JNull
| JNum (n : Z)
| JStr (s : string)
| JObj (fields : list (string * json)).

(** A property whose value is [undefined] is left out by
    [JSON.stringify]. *)
Definition prop (key : string) (v : value) : list (string * json) :=
  match v with
  | None => []
  | Some s => [(key, JStr s)]
  end.

(** A column read back from the database: SQL [NULL] is [null]. *)
Definition nullable (v : value) : json :=
  match v with
  | None => JNull
  | Some s => JStr s
  end.

Definition keys (j : json) : list string :=
  match j with
  | JObj fields => fst <$> fields
  | _ => []
  end.

Fixpoint assoc (key : string) (fields : list (string * json)) : option json :=
  match fields with
  | [] => None
  | (k, v) :: rest => if String.eqb k key then Some v else assoc key rest
  end.

Definition get (key : string) (j : json) : option json :=
  match j with
  | JObj fields => assoc key fields
  | _ => None
  end.

End Js.

(** ** bcryptjs

    [bcrypt.hash(s, rounds)] draws a fresh salt; the salt is an explicit
    argument here.  [bcrypt.compare(s, digest)] recomputes the digest with
    the salt stored in [digest]. *)

Class Bcrypt := {
  bcrypt_hash : string → Z → string → string;
  bcrypt_compare : string → string → bool
}.

Class BcryptLaws (B : Bcrypt) : Prop := {
  bcrypt_compare_hash :
    ∀ (s : string) (rounds : Z) (salt : string),
      bcrypt_compare s (bcrypt_hash s rounds salt) = true
}.

(** ** jsonwebtoken *)

Module Jwt.

(** The decoded payload of a token of this server: the two fields the
    handlers sign, and the registered claims [iat] and [exp] (seconds). *)
Record claims := {
  userId : Z;
  email : Js.value;
  iat : Z;
  exp : option Z
}.

(** A token in its three parts; the header is always HS256. *)
Record jws := {
  payload : claims;
  signature : string
}.

Inductive error :=
| JsonWebTokenError (message : string)
| TokenExpiredError (expiredAt : Z).

(** The [ms] package on the spans [<digits><unit>] with a unit among
    [s], [m], [h] and [d], in milliseconds; the other spellings [ms]
    reads are not modelled and give [None]. *)
Definition digit (c : ascii) : option Z :=
  let n := Z.of_nat (nat_of_ascii c) in
  if (48 <=? n) && (n <=? 57) then Some (n - 48) else None.

Definition unit_ms (c : ascii) : option Z :=
  if Ascii.eqb c "s" then Some 1000
  else if Ascii.eqb c "m" then Some 60000
  else if Ascii.eqb c "h" then Some 3600000
  else if Ascii.eqb c "d" then Some 86400000
  else None.

Fixpoint ms_from (acc : option Z) (s : string) : option Z :=
  match s with
  | EmptyString => None
  | String c rest =>
      match digit c with
      | Some d => ms_from (Some (10 * default 0 acc + d)) rest
      | None =>
          match acc, rest with
          | Some n, EmptyString => Z.mul n <$> unit_ms c
          | _, _ => None
          end
      end
  end.

Definition ms (s : string) : option Z := ms_from None s.

(** The keyed signature over a payload and the compact serialisation
    [header.payload.signature] with its parser. *)
Class Jws := {
  jws_sign : string → claims → string;
  jws_compact : jws → string;
  jws_parse : string → option jws
}.

Class JwsLaws (J : Jws) : Prop := {
  jws_parse_compact : ∀ t : jws, jws_parse (jws_compact t) = Some t
}.

Section WithJws.
Context {J : Jws}.

(** [jwt.sign({userId, email}, secret, {expiresIn})] at clock [now]
    (seconds); an [expiresIn] that [ms] cannot read makes [sign] throw. *)
Definition sign (uid : Z) (mail : Js.value) (secret : string)
    (expiresIn : string) (now : Z) : option string :=
  match ms expiresIn with
  | None => None
  | Some span =>
      let c := {| userId := uid; email := mail; iat := now;
                  exp := Some (now + span / 1000) |} in
      Some (jws_compact {| payload := c; signature := jws_sign secret c |})
  end.

(** [jwt.verify(token, secret)] at clock [now]: the token must parse, the
    signature must be the one [secret] gives, and [exp], when there is
    one, must lie after the clock. *)
Definition verify (token secret : string) (now : Z) : error + claims :=
  match jws_parse token with
  | None => inl (JsonWebTokenError "jwt malformed")
  | Some t =>
      if String.eqb (signature t) (jws_sign secret (payload t)) then
        match exp (payload t) with
        | Some e =>
            if e <=? now then inl (TokenExpiredError e)
            else inr (payload t)
        | None => inr (payload t)
        end
      else inl (JsonWebTokenError "invalid signature")
  end.

End WithJws.
End Jwt.

(** ** The database of [server.js]

    The tables as their [CREATE TABLE] statements declare them; the columns
    with a default the handlers never read ([status], [created_at]) are
    left out. *)

Module User.
Record row := {
  id : Z;
  email : string;
  password : string;
  name : string;
  phone : Js.value
}.
End User.

Module Ride.
Record row := {
  id : Z;
  user_id : Z;
  origin : string;
  destination : string;
  departure_time : string;
  available_seats : string;
  price_per_seat : Js.value;
  description : Js.value
}.
End Ride.

Module Plan.
Record row := {
  id : Z;
  user_id : Z;
  destination : string;
  start_date : string;
  end_date : string;
  description : Js.value;
  budget_range : Js.value;
  interests : Js.value
}.
End Plan.

Module Db.

Record t := {
  users : list User.row;
  users_seq : Z;
  carpool_rides : list Ride.row;
  carpool_rides_seq : Z;
  travel_plans : list Plan.row;
  travel_plans_seq : Z
}.

Definition empty : t :=
  {| users := []; users_seq := 0;
     carpool_rides := []; carpool_rides_seq := 0;
     travel_plans := []; travel_plans_seq := 0 |}.

Inductive error := SQLITE_CONSTRAINT (what : string).

(** [INTEGER PRIMARY KEY AUTOINCREMENT]: one more than the largest rowid
    the table has or ever had. *)
Definition next_rowid (seq : Z) (ids : list Z) : Z :=
  foldr Z.max seq ids + 1.

(** [SELECT * FROM users WHERE email = ?]; an unbound parameter is [NULL]
    and equals no row. *)
Definition select_user_by_email (d : t) (mail : Js.value) : option User.row :=
  match mail with
  | None => None
  | Some e => List.find (fun r => String.eqb (User.email r) e) (users d)
  end.

(** [INSERT INTO users (email, password, name, phone) VALUES (?, ?, ?, ?)]
    with the [NOT NULL] and [UNIQUE] constraints of the table. *)
Definition insert_user (d : t) (mail pass nm ph : Js.value) : error + (Z * t) :=
  match mail, pass, nm with
  | Some e, Some p, Some n =>
      if existsb (fun r => String.eqb (User.email r) e) (users d)
      then inl (SQLITE_CONSTRAINT "UNIQUE constraint failed: users.email")
      else
        let rowid := next_rowid (users_seq d) (User.id <$> users d) in
        inr (rowid,
             {| users := users d ++
                  [{| User.id := rowid; User.email := e; User.password := p;
                      User.name := n; User.phone := ph |}];
                users_seq := rowid;
                carpool_rides := carpool_rides d;
                carpool_rides_seq := carpool_rides_seq d;
                travel_plans := travel_plans d;
                travel_plans_seq := travel_plans_seq d |})
  | _, _, _ => inl (SQLITE_CONSTRAINT "NOT NULL constraint failed")
  end.

(** [INSERT INTO carpool_rides (user_id, origin, ...)]. *)
Definition insert_ride (d : t) (uid : Z)
    (orig dest dep seats price descr : Js.value) : error + (Z * t) :=
  match orig, dest, dep, seats with
  | Some o, Some de, Some dt, Some se =>
      let rowid :=
        next_rowid (carpool_rides_seq d) (Ride.id <$> carpool_rides d) in
      inr (rowid,
           {| users := users d;
              users_seq := users_seq d;
              carpool_rides := carpool_rides d ++
                [{| Ride.id := rowid; Ride.user_id := uid; Ride.origin := o;
                    Ride.destination := de; Ride.departure_time := dt;
                    Ride.available_seats := se; Ride.price_per_seat := price;
                    Ride.description := descr |}];
              carpool_rides_seq := rowid;
              travel_plans := travel_plans d;
              travel_plans_seq := travel_plans_seq d |})
  | _, _, _, _ => inl (SQLITE_CONSTRAINT "NOT NULL constraint failed")
  end.

(** [INSERT INTO travel_plans (user_id, destination, ...)]. *)
Definition insert_plan (d : t) (uid : Z)
    (dest start stop descr budget inter : Js.value) : error + (Z * t) :=
  match dest, start, stop with
  | Some de, Some sd, Some ed =>
      let rowid :=
        next_rowid (travel_plans_seq d) (Plan.id <$> travel_plans d) in
      inr (rowid,
           {| users := users d;
              users_seq := users_seq d;
              carpool_rides := carpool_rides d;
              carpool_rides_seq := carpool_rides_seq d;
              travel_plans := travel_plans d ++
                [{| Plan.id := rowid; Plan.user_id := uid;
                    Plan.destination := de; Plan.start_date := sd;
                    Plan.end_date := ed; Plan.description := descr;
                    Plan.budget_range := budget; Plan.interests := inter |}];
              travel_plans_seq := rowid |})
  | _, _, _ => inl (SQLITE_CONSTRAINT "NOT NULL constraint failed")
  end.

End Db.

(** ** Requests, replies and the effects of a handler *)

Record request := {
  headers : gmap string string;
  body : gmap string string;
  user : option Jwt.claims
}.

(** What the client observes: a status with a JSON body, or nothing when
    an exception escapes the callback. *)
Inductive reply :=
| Reply (status : Z) (json : Js.json)
| Uncaught (exn : string).

Definition message (text : string) : Js.json :=
  Js.JObj [("message", Js.JStr text)].

(** The calls a handler makes to the store and to the hasher, in order. *)
Inductive event :=
| Select_user (mail : Js.value)
| Insert_user (mail : Js.value)
| Bcrypt_hash (plain : string)
| Bcrypt_compare (plain digest : string)
| Insert_ride (uid : Z)
| Insert_plan (uid : Z).

Record world := {
  db : Db.t;
  trace : list event
}.

Definition M (A : Type) : Type := world → A * world.

Definition ret {A : Type} (a : A) : M A := λ w, (a, w).

Definition bind {A B : Type} (m : M A) (f : A → M B) : M B :=
  λ w, let '(a, w') := m w in f a w'.

Notation "x <- m ;; k" := (bind m (λ x, k))
  (at level 100, m at next level, right associativity).
Notation "m ;; k" := (bind m (λ _, k))
  (at level 100, right associativity).

Definition emit (e : event) : M unit :=
  λ w, (tt, {| db := db w; trace := trace w ++ [e] |}).

(** [db.get]: a [SELECT] on these tables meets no constraint, so the
    [if (err)] branch of its callback has no counterpart here. *)
Definition db_get_user (mail : Js.value) : M (option User.row) :=
  emit (Select_user mail);;
  λ w, (Db.select_user_by_email (db w) mail, w).

Definition run_insert (r : Db.t → Db.error + (Z * Db.t)) : M (Db.error + Z) :=
  λ w, match r (db w) with
       | inl e => (inl e, w)
       | inr (lastID, d) => (inr lastID, {| db := d; trace := trace w |})
       end.

Definition db_insert_user (mail pass nm ph : Js.value) : M (Db.error + Z) :=
  emit (Insert_user mail);;
  run_insert (λ d, Db.insert_user d mail pass nm ph).

Definition db_insert_ride (uid : Z)
    (orig dest dep seats price descr : Js.value) : M (Db.error + Z) :=
  emit (Insert_ride uid);;
  run_insert (λ d, Db.insert_ride d uid orig dest dep seats price descr).

Definition db_insert_plan (uid : Z)
    (dest start stop descr budget inter : Js.value) : M (Db.error + Z) :=
  emit (Insert_plan uid);;
  run_insert (λ d, Db.insert_plan d uid dest start stop descr budget inter).

(** ** Start-up: [const JWT_SECRET = process.env.JWT_SECRET || '...'] *)

Record config := {
  JWT_SECRET : string
}.

(** How the top level of [server.js] can end: the process stops before
    it listens, or it listens with its configuration. *)
Inductive startup_result :=
| Refused (why : string)
| Listening (cfg : config).

(** No statement of the top level stops the process: the secret falls
    back to a literal and [app.listen] is reached. *)

Definition startup (process_env : gmap string string) : startup_result :=
  Listening
    {| JWT_SECRET :=
         Js.or_else (process_env !! "JWT_SECRET") "your-secret-key-here" |}.

(** ** The handlers *)

Section Handlers.
Context {B : Bcrypt} {J : Jwt.Jws}.
Variable cfg : config.

(** [authenticateToken]: a reply, or the request handed to [next()] with
    [req.user] set. *)
Definition authenticateToken (now : Z) (req : request) : reply + request :=
  let authHeader := headers req !! "authorization" in
  let token := Js.and_then authHeader (λ h, Js.split " " h !! 1%nat) in
  if negb (Js.truthy token) then
    inl (Reply 401 (message "Access token required"))
  else
    match Jwt.verify (Js.str token) (JWT_SECRET cfg) now with
    | inl err => inl (Reply 403 (message "Invalid token"))
    | inr decoded =>
        inr {| headers := headers req; body := body req;
               user := Some decoded |}
    end.

(** [app.post('/api/register', ...)] *)
Definition post_api_register (now : Z) (salt : string) (req : request)
  : M reply :=
  let email := body req !! "email" in
  let password := body req !! "password" in
  let name := body req !! "name" in
  let phone := body req !! "phone" in
  if negb (Js.truthy email) || negb (Js.truthy password)
     || negb (Js.truthy name) then
    ret (Reply 400 (message "Email, password, and name are required"))
  else
    found <- db_get_user email;;
    match found with
    | Some _ => ret (Reply 400 (message "User already exists"))
    | None =>
        emit (Bcrypt_hash (Js.str password));;
        let hashedPassword := bcrypt_hash (Js.str password) 10 salt in
        inserted <- db_insert_user email (Some hashedPassword) name phone;;
        match inserted with
        | inl _ => ret (Reply 500 (message "Error creating user"))
        | inr lastID =>
            match Jwt.sign lastID email (JWT_SECRET cfg) "24h" now with
            | None => ret (Uncaught "invalid expiresIn")
            | Some token =>
                ret (Reply 201
                  (Js.JObj
                     [("token", Js.JStr token);
                      ("user",
                       Js.JObj ([("id", Js.JNum lastID)]
                                ++ Js.prop "email" email
                                ++ Js.prop "name" name
                                ++ Js.prop "phone" phone))]))
            end
        end
    end.

(** [app.post('/api/login', ...)] *)
Definition post_api_login (now : Z) (req : request) : M reply :=
  let email := body req !! "email" in
  let password := body req !! "password" in
  if negb (Js.truthy email) || negb (Js.truthy password) then
    ret (Reply 400 (message "Email and password are required"))
  else
    found <- db_get_user email;;
    match found with
    | None => ret (Reply 400 (message "Invalid credentials"))
    | Some u =>
        emit (Bcrypt_compare (Js.str password) (User.password u));;
        let isValidPassword :=
          bcrypt_compare (Js.str password) (User.password u) in
        if negb isValidPassword then
          ret (Reply 400 (message "Invalid credentials"))
        else
          match Jwt.sign (User.id u) (Some (User.email u))
                  (JWT_SECRET cfg) "24h" now with
          | None => ret (Uncaught "invalid expiresIn")
          | Some token =>
              ret (Reply 200
                (Js.JObj
                   [("token", Js.JStr token);
                    ("user",
                     Js.JObj [("id", Js.JNum (User.id u));
                              ("email", Js.JStr (User.email u));
                              ("name", Js.JStr (User.name u));
                              ("phone", Js.nullable (User.phone u))])]))
          end
    end.

(** The handler of [app.post('/api/carpool/rides', authenticateToken, ...)] *)
Definition create_ride (req : request) : M reply :=
  let origin := body req !! "origin" in
  let destination := body req !! "destination" in
  let departure_time := body req !! "departure_time" in
  let available_seats := body req !! "available_seats" in
  let price_per_seat := body req !! "price_per_seat" in
  let description := body req !! "description" in
  if negb (Js.truthy origin) || negb (Js.truthy destination)
     || negb (Js.truthy departure_time) || negb (Js.truthy available_seats)
  then ret (Reply 400 (message "All required fields must be provided"))
  else
    match user req with
    | None => ret (Uncaught "TypeError: req.user is undefined")
    | Some u =>
        inserted <- db_insert_ride (Jwt.userId u) origin destination
                     departure_time available_seats price_per_seat
                     description;;
        match inserted with
        | inl _ => ret (Reply 500 (message "Error creating ride"))
        | inr lastID =>
            ret (Reply 201
              (Js.JObj [("id", Js.JNum lastID);
                        ("message", Js.JStr "Ride created successfully")]))
        end
    end.

(** The handler of [app.post('/api/travel/plans', authenticateToken, ...)] *)
Definition create_plan (req : request) : M reply :=
  let destination := body req !! "destination" in
  let start_date := body req !! "start_date" in
  let end_date := body req !! "end_date" in
  let description := body req !! "description" in
  let budget_range := body req !! "budget_range" in
  let interests := body req !! "interests" in
  if negb (Js.truthy destination) || negb (Js.truthy start_date)
     || negb (Js.truthy end_date)
  then ret (Reply 400
         (message "Destination, start date, and end date are required"))
  else
    match user req with
    | None => ret (Uncaught "TypeError: req.user is undefined")
    | Some u =>
        inserted <- db_insert_plan (Jwt.userId u) destination start_date
                     end_date description budget_range interests;;
        match inserted with
        | inl _ => ret (Reply 500 (message "Error creating travel plan"))
        | inr lastID =>
            ret (Reply 201
              (Js.JObj [("id", Js.JNum lastID);
                        ("message",
                         Js.JStr "Travel plan created successfully")]))
        end
    end.

(** A route with a middleware in front: the handler runs only when the
    middleware calls [next()]. *)
Definition guarded (now : Z) (handler : request → M reply) (req : request)
  : M reply :=
  match authenticateToken now req with
  | inl r => ret r
  | inr req' => handler req'
  end.

Definition post_api_carpool_rides (now : Z) : request → M reply :=
  guarded now create_ride.

Definition post_api_travel_plans (now : Z) : request → M reply :=
  guarded now create_plan.

End Handlers.

(** ** Stand-ins for the two packages

    Small implementations of the interfaces, with their laws proved, on
    which the handlers can be run on concrete requests.  They only have the
    shape of the packages: the digest and the signature are not
    cryptographic. *)

Module Demo.

(** A length-free framing of the fields of a token: a positive number is
    its bits, least significant first, closed by ["."]; a string is its
    characters, each after a ["c"], closed by ["."]. *)
Fixpoint put_pos (p : positive) (rest : string) : string :=
  match p with
  | xH => String "." rest
  | xO q => String "0" (put_pos q rest)
  | xI q => String "1" (put_pos q rest)
  end.

Fixpoint get_pos (s : string) : option (positive * string) :=
  match s with
  | EmptyString => None
  | String c rest =>
      if Ascii.eqb c "." then Some (xH, rest)
      else if Ascii.eqb c "0" then
        match get_pos rest with
        | Some (q, r) => Some (xO q, r)
        | None => None
        end
      else if Ascii.eqb c "1" then
        match get_pos rest with
        | Some (q, r) => Some (xI q, r)
        | None => None
        end
      else None
  end.

Definition put_Z (z : Z) (rest : string) : string :=
  match z with
  | Z0 => String "z" rest
  | Zpos p => String "p" (put_pos p rest)
  | Zneg p => String "n" (put_pos p rest)
  end.

Definition get_Z (s : string) : option (Z * string) :=
  match s with
  | EmptyString => None
  | String c rest =>
      if Ascii.eqb c "z" then Some (Z0, rest)
      else if Ascii.eqb c "p" then
        match get_pos rest with
        | Some (q, r) => Some (Zpos q, r)
        | None => None
        end
      else if Ascii.eqb c "n" then
        match get_pos rest with
        | Some (q, r) => Some (Zneg q, r)
        | None => None
        end
      else None
  end.

Fixpoint put_str (s rest : string) : string :=
  match s with
  | EmptyString => String "." rest
  | String c s' => String "c" (String c (put_str s' rest))
  end.

Fixpoint get_str (s : string) : option (string * string) :=
  match s with
  | String c (String d rest) =>
      if Ascii.eqb c "." then Some (EmptyString, String d rest)
      else if Ascii.eqb c "c" then
        match get_str rest with
        | Some (t, r) => Some (String d t, r)
        | None => None
        end
      else None
  | String c EmptyString =>
      if Ascii.eqb c "." then Some (EmptyString, EmptyString) else None
  | EmptyString => None
  end.

Definition put_opt {A : Type} (put : A → string → string)
    (o : option A) (rest : string) : string :=
  match o with
  | None => String "N" rest
  | Some a => String "S" (put a rest)
  end.

Definition get_opt {A : Type} (get : string → option (A * string))
    (s : string) : option (option A * string) :=
  match s with
  | EmptyString => None
  | String c rest =>
      if Ascii.eqb c "N" then Some (None, rest)
      else if Ascii.eqb c "S" then
        match get rest with
        | Some (a, r) => Some (Some a, r)
        | None => None
        end
      else None
  end.

Definition compact (t : Jwt.jws) : string :=
  let c := Jwt.payload t in
  put_Z (Jwt.userId c)
    (put_opt put_str (Jwt.email c)
       (put_Z (Jwt.iat c)
          (put_opt put_Z (Jwt.exp c)
             (put_str (Jwt.signature t) EmptyString)))).

Definition parse (s : string) : option Jwt.jws :=
  match get_Z s with
  | None => None
  | Some (uid, s1) =>
  match get_opt get_str s1 with
  | None => None
  | Some (mail, s2) =>
  match get_Z s2 with
  | None => None
  | Some (issued, s3) =>
  match get_opt get_Z s3 with
  | None => None
  | Some (expiry, s4) =>
  match get_str s4 with
  | Some (sig, EmptyString) =>
      Some {| Jwt.payload :=
                {| Jwt.userId := uid; Jwt.email := mail;
                   Jwt.iat := issued; Jwt.exp := expiry |};
              Jwt.signature := sig |}
  | _ => None
  end end end end end.

(** The signature depends on the key and on the signed fields. *)
Definition mac (secret : string) (c : Jwt.claims) : string :=
  put_str secret (put_Z (Jwt.userId c) (put_Z (Jwt.iat c) EmptyString)).

#[export] Instance jws : Jwt.Jws :=
  {| Jwt.jws_sign := mac; Jwt.jws_compact := compact; Jwt.jws_parse := parse |}.

(** The digest keeps the salt and the rounds in front of the text. *)
Definition digest (s : string) (rounds : Z) (salt : string) : string :=
  put_str salt (put_Z rounds s).

Definition check (s d : string) : bool :=
  match get_str d with
  | Some (_, d1) =>
      match get_Z d1 with
      | Some (_, d2) => String.eqb d2 s
      | None => false
      end
  | None => false
  end.

#[export] Instance bcrypt : Bcrypt :=
  {| bcrypt_hash := digest; bcrypt_compare := check |}.

End Demo.

(** ** The scenario of the specification, on the stand-ins *)

Module Scenario.
Import Demo.

Definition cfg : config := {| JWT_SECRET := "your-secret-key-here" |}.

Definition request_of (hs fields : list (string * string)) : request :=
  {| headers := list_to_map hs; body := list_to_map fields; user := None |}.

Definition reply_json (r : reply) : Js.json :=
  match r with
  | Reply _ json => json
  | Uncaught _ => Js.JNull
  end.

(** The store before and after Alice has registered. *)
Definition fresh : world := {| db := Db.empty; trace := [] |}.

Definition alice : User.row :=
  {| User.id := 1; User.email := "alice@example.com";
     User.password := bcrypt_hash "pw12345" 10 "salt";
     User.name := "Alice"; User.phone := None |}.

Definition registered : world :=
  {| db := {| Db.users := [alice]; Db.users_seq := 1;
              Db.carpool_rides := []; Db.carpool_rides_seq := 0;
              Db.travel_plans := []; Db.travel_plans_seq := 0 |};
     trace := [] |}.

Definition register_alice : request :=
  request_of [] [("email", "alice@example.com"); ("password", "pw12345");
                 ("name", "Alice")].

Definition login_alice : request :=
  request_of [] [("email", "alice@example.com"); ("password", "pw12345")].

Definition login_alice_wrong : request :=
  request_of [] [("email", "alice@example.com"); ("password", "wrongpw")].

Definition login_ghost : request :=
  request_of [] [("email", "ghost@example.com"); ("password", "pw12345")].

(** The token of Alice's login at clock 2000, and the same payload signed
    with another secret. *)
Definition alice_token : string :=
  Eval vm_compute in
    default "" (Jwt.sign 1 (Some "alice@example.com")
                  "your-secret-key-here" "24h" 2000).

Definition forged_token : string :=
  Eval vm_compute in
    default "" (Jwt.sign 1 (Some "alice@example.com")
                  "another-secret" "24h" 2000).

Definition ride_fields : list (string * string) :=
  [("origin", "Downtown"); ("destination", "Riverside Park");
   ("departure_time", "2025-01-01 09:00"); ("available_seats", "3");
   ("user_id", "999"); ("userId", "999")].

Definition plan_fields : list (string * string) :=
  [("destination", "Lisbon"); ("start_date", "2025-06-01");
   ("end_date", "2025-06-10"); ("user_id", "999")].

End Scenario.

(** ** The read-only routes

    The three listings build their statement as a text with [?] marks and
    a list of bound values.  Of [sqlite3] they need the [LIKE] operator
    and, for the columns declared [DATETIME] and [DATE], the order of the
    values as the database stores them; both are parameters. *)

Class Sqlite := {
  sqlite_like : string → string → bool;
  sqlite_numeric_leb : string → string → bool
}.

Module Sql.

Inductive error :=
| SQLITE_ERROR (what : string)
| SQLITE_RANGE (what : string).

(** What a listing sends: [res.json(rows)], or a reply built some other
    way. *)
Inductive listing (A : Type) :=
| Rows (rows : list A)
| Failure (r : reply).
Arguments Rows {A} rows.
Arguments Failure {A} r.

Definition nl : string := String "010" EmptyString.

(** The number of [?] marks of a statement. *)
Fixpoint marks (s : string) : nat :=
  match s with
  | EmptyString => O
  | String c s' => (if Ascii.eqb c "?" then 1 else 0)%nat + marks s'
  end.

(** The conditions [<column> LIKE ?] of a statement against the bound
    values, in order: a mark without a value is [NULL], and [LIKE NULL]
    holds for no row. *)
Fixpoint holds {S : Sqlite} {A : Type} (columns : list (A → string))
    (params : list string) (r : A) : bool :=
  match columns, params with
  | [], _ => true
  | c :: cs, p :: ps => sqlite_like p (c r) && holds cs ps r
  | _ :: _, [] => false
  end.

End Sql.

Module Site.
Record row := {
  id : Z;
  name : string;
  location : string;
  description : string;
  historical_period : Js.value;
  interesting_facts : Js.value;
  visit_info : Js.value;
  image_url : Js.value;
  created_at : string
}.

(** A row as [SELECT *] returns it. *)
Definition json (r : row) : Js.json :=
  Js.JObj [("id", Js.JNum (id r)); ("name", Js.JStr (name r));
           ("location", Js.JStr (location r));
           ("description", Js.JStr (description r));
           ("historical_period", Js.nullable (historical_period r));
           ("interesting_facts", Js.nullable (interesting_facts r));
           ("visit_info", Js.nullable (visit_info r));
           ("image_url", Js.nullable (image_url r));
           ("created_at", Js.JStr (created_at r))].

(** [ORDER BY name ASC] on a [TEXT] column: the order of the bytes. *)
Definition by_name : relation row :=
  λ a b, String.leb (name a) (name b) = true.

#[global] Instance by_name_dec (a b : row) : Decision (by_name a b).
Proof. unfold by_name. apply _. Defined.

End Site.

Module Sites.

(** The table [historical_sites] with its rowid sequence. *)
Record t := {
  rows : list Site.row;
  seq : Z
}.

Definition empty : t := {| rows := []; seq := 0 |}.

(** One row of [INSERT INTO historical_sites (name, location, description,
    historical_period, interesting_facts, visit_info, image_url)]; the
    table has no constraint besides its key, so [OR IGNORE] finds nothing
    to ignore.  [stamp] is [CURRENT_TIMESTAMP]. *)
Definition insert (stamp : string)
    (v : string * string * string * string * string * string * string)
    (s : t) : t :=
  let '(nm, loc, descr, period, facts, visit, image) := v in
  let rowid := Db.next_rowid (seq s) (Site.id <$> rows s) in
  {| rows := rows s ++
       [{| Site.id := rowid; Site.name := nm; Site.location := loc;
           Site.description := descr;
           Site.historical_period := Some period;
           Site.interesting_facts := Some facts;
           Site.visit_info := Some visit; Site.image_url := Some image;
           Site.created_at := stamp |}];
     seq := rowid |}.

(** The sample sites of [db.serialize]. *)
Definition samples
  : list (string * string * string * string * string * string * string) :=
 [
  ("Ancient Town Square",
   "Downtown District",
   "A historic town square that served as the heart of commerce and community gatherings for over 200 years.",
   "1800-1900",
   "The original cobblestones were imported from Europe. The central fountain was built in 1845 and still functions today.",
   "Open 24/7, free guided tours available on weekends at 2 PM",
   "/images/town-square.jpg");
  ("Old Mill Museum",
   "Riverside Park",
   "A restored 19th-century grist mill that powered the early industrial development of the area.",
   "1820-1920",
   "The mill wheel is 20 feet in diameter and can still turn. It ground grain for the entire region for 80 years.",
   "Open Wed-Sun 10 AM-4 PM, admission $5",
   "/images/old-mill.jpg");
  ("Heritage Library",
   "Main Street",
   "The citys first public library, built in 1889 with Carnegie funding, featuring original Victorian architecture.",
   "1889-present",
   "Andrew Carnegie donated $25,000 for its construction. The reading room still has the original oak tables and brass lamps.",
   "Open Mon-Fri 9 AM-8 PM, Sat 10 AM-5 PM, free admission",
   "/images/heritage-library.jpg");
  ("Railway Station Monument",
   "Station District",
   "The preserved platform and station house from the original railway line that connected the town to major cities.",
   "1875-1960",
   "Over 1 million passengers passed through this station. The last train departed in 1960 when the line was discontinued.",
   "Outdoor monument, accessible 24/7, information plaques available",
   "/images/railway-station.jpg");
  ("Founders Memorial Park",
   "Park Avenue",
   "A park dedicated to the three founding families, featuring monuments and the original settlement site.",
   "1799-1850",
   "The oak tree in the center was planted by the first mayor in 1801 and is now over 220 years old.",
   "Open sunrise to sunset, free admission, picnic areas available",
   "/images/founders-park.jpg")
 ].

(** The [INSERT OR IGNORE] that every start of the server runs. *)
Definition seed (stamp : string) (s : t) : t :=
  foldl (λ acc v, insert stamp v acc) s samples.

Definition select_all : string := "SELECT * FROM historical_sites".
Definition where_location : string := " WHERE location LIKE ?".
Definition order_by_name : string := " ORDER BY name ASC".

(** The statements of [app.get('/api/historical/sites')] that the table
    answers, with the columns of their [LIKE] conditions. *)
Definition statement (query : string) : option (list (Site.row → string)) :=
  if String.eqb query (select_all +:+ order_by_name) then Some []
  else if String.eqb query (select_all +:+ where_location +:+ order_by_name)
  then Some [Site.location]
  else None.

(** [db.all(query, params)]. *)
Definition all {S : Sqlite} (s : t) (query : string) (params : list string)
  : Sql.error + list Site.row :=
  match statement query with
  | None => inl (Sql.SQLITE_ERROR "syntax error")
  | Some columns =>
      if (List.length columns <? List.length params)%nat
      then inl (Sql.SQLITE_RANGE "column index out of range")
      else inr (merge_sort Site.by_name
                  (filter (λ r, Sql.holds columns params r = true) (rows s)))
  end.

End Sites.

(** The rows of the two joined listings: the columns of [r.*] (or [t.*])
    that the tables of this model keep, and the two columns taken from
    [users]. *)
Module Listed.

Record ride := {
  ride_row : Ride.row;
  driver_name : string;
  driver_phone : Js.value
}.

Record plan := {
  plan_row : Plan.row;
  traveler_name : string;
  traveler_phone : Js.value
}.

(** [FROM carpool_rides r JOIN users u ON r.user_id = u.id]; every row
    has the [status] the table defaults to, ['active']. *)
Definition join_rides (d : Db.t) : list ride :=
  r ← Db.carpool_rides d;
  u ← filter (λ u, User.id u = Ride.user_id r) (Db.users d);
  [{| ride_row := r; driver_name := User.name u;
      driver_phone := User.phone u |}].

(** [FROM travel_plans t JOIN users u ON t.user_id = u.id]. *)
Definition join_plans (d : Db.t) : list plan :=
  t ← Db.travel_plans d;
  u ← filter (λ u, User.id u = Plan.user_id t) (Db.users d);
  [{| plan_row := t; traveler_name := User.name u;
      traveler_phone := User.phone u |}].

Definition select_rides : string :=
  Sql.nl
  +:+ "    SELECT r.*, u.name as driver_name, u.phone as driver_phone "
  +:+ Sql.nl +:+ "    FROM carpool_rides r "
  +:+ Sql.nl +:+ "    JOIN users u ON r.user_id = u.id "
  +:+ Sql.nl +:+ "    WHERE r.status = 'active'"
  +:+ Sql.nl +:+ "  ".

Definition select_plans : string :=
  Sql.nl
  +:+ "    SELECT t.*, u.name as traveler_name, u.phone as traveler_phone "
  +:+ Sql.nl +:+ "    FROM travel_plans t "
  +:+ Sql.nl +:+ "    JOIN users u ON t.user_id = u.id "
  +:+ Sql.nl +:+ "    WHERE t.status = 'active'"
  +:+ Sql.nl +:+ "  ".

Definition origin (r : ride) : string := Ride.origin (ride_row r).
Definition destination (r : ride) : string := Ride.destination (ride_row r).
Definition plan_destination (p : plan) : string :=
  Plan.destination (plan_row p).

(** The statements of [app.get('/api/carpool/rides')] that the database
    answers, with the columns of their [LIKE] conditions. *)
Definition rides_statement (query : string)
  : option (list (ride → string)) :=
  let order := " ORDER BY r.departure_time ASC" in
  let by_origin := " AND r.origin LIKE ?" in
  let by_destination := " AND r.destination LIKE ?" in
  if String.eqb query (select_rides +:+ order) then Some []
  else if String.eqb query (select_rides +:+ by_origin +:+ order)
  then Some [origin]
  else if String.eqb query (select_rides +:+ by_destination +:+ order)
  then Some [destination]
  else if String.eqb query
            (select_rides +:+ by_origin +:+ by_destination +:+ order)
  then Some [origin; destination]
  else None.

(** The statements of [app.get('/api/travel/plans')]. *)
Definition plans_statement (query : string)
  : option (list (plan → string)) :=
  let order := " ORDER BY t.start_date ASC" in
  let by_destination := " AND t.destination LIKE ?" in
  if String.eqb query (select_plans +:+ order) then Some []
  else if String.eqb query (select_plans +:+ by_destination +:+ order)
  then Some [plan_destination]
  else None.

Section WithSqlite.
Context {S : Sqlite}.

(** [ORDER BY r.departure_time ASC] and [ORDER BY t.start_date ASC]. *)
Definition by_departure : relation ride :=
  λ a b, sqlite_numeric_leb (Ride.departure_time (ride_row a))
           (Ride.departure_time (ride_row b)) = true.

Definition by_start : relation plan :=
  λ a b, sqlite_numeric_leb (Plan.start_date (plan_row a))
           (Plan.start_date (plan_row b)) = true.

#[global] Instance by_departure_dec (a b : ride) : Decision (by_departure a b).
Proof. unfold by_departure. apply _. Defined.

#[global] Instance by_start_dec (a b : plan) : Decision (by_start a b).
Proof. unfold by_start. apply _. Defined.

(** [db.all(query, params)] on the two joins. *)
Definition all_rides (d : Db.t) (query : string) (params : list string)
  : Sql.error + list ride :=
  match rides_statement query with
  | None => inl (Sql.SQLITE_ERROR "syntax error")
  | Some columns =>
      if (List.length columns <? List.length params)%nat
      then inl (Sql.SQLITE_RANGE "column index out of range")
      else inr (merge_sort by_departure
                  (filter (λ r, Sql.holds columns params r = true)
                     (join_rides d)))
  end.

Definition all_plans (d : Db.t) (query : string) (params : list string)
  : Sql.error + list plan :=
  match plans_statement query with
  | None => inl (Sql.SQLITE_ERROR "syntax error")
  | Some columns =>
      if (List.length columns <? List.length params)%nat
      then inl (Sql.SQLITE_RANGE "column index out of range")
      else inr (merge_sort by_start
                  (filter (λ p, Sql.holds columns params p = true)
                     (join_plans d)))
  end.

End WithSqlite.
End Listed.

(** ** The handlers of the read-only routes

    [req.query] is an object whose fields are strings or absent. *)

(** The statement and the bound values of [app.get('/api/carpool/rides')] *)
Definition carpool_rides_query (q : gmap string string)
  : string * list string :=
  let origin := q !! "origin" in
  let destination := q !! "destination" in
  let query := Listed.select_rides in
  let params := [] in
  let '(query, params) :=
    if Js.truthy origin
    then (query +:+ " AND r.origin LIKE ?",
          params ++ ["%" +:+ Js.str origin +:+ "%"])
    else (query, params) in
  let '(query, params) :=
    if Js.truthy destination
    then (query +:+ " AND r.destination LIKE ?",
          params ++ ["%" +:+ Js.str destination +:+ "%"])
    else (query, params) in
  (query +:+ " ORDER BY r.departure_time ASC", params).

(** The statement and the bound values of [app.get('/api/travel/plans')] *)
Definition travel_plans_query (q : gmap string string)
  : string * list string :=
  let destination := q !! "destination" in
  let query := Listed.select_plans in
  let params := [] in
  let '(query, params) :=
    if Js.truthy destination
    then (query +:+ " AND t.destination LIKE ?",
          params ++ ["%" +:+ Js.str destination +:+ "%"])
    else (query, params) in
  (query +:+ " ORDER BY t.start_date ASC", params).

(** The statement and the bound values of
    [app.get('/api/historical/sites')] *)
Definition historical_sites_query (q : gmap string string)
  : string * list string :=
  let location := q !! "location" in
  let query := "SELECT * FROM historical_sites" in
  let params := [] in
  let '(query, params) :=
    if Js.truthy location
    then (query +:+ " WHERE location LIKE ?",
          params ++ ["%" +:+ Js.str location +:+ "%"])
    else (query, params) in
  (query +:+ " ORDER BY name ASC", params).

Section Listings.
Context {S : Sqlite}.

(** [app.get('/api/carpool/rides', ...)] *)
Definition get_api_carpool_rides (d : Db.t) (q : gmap string string)
  : Sql.listing Listed.ride :=
  let '(query, params) := carpool_rides_query q in
  match Listed.all_rides d query params with
  | inl _ => Sql.Failure (Reply 500 (message "Error fetching rides"))
  | inr rows => Sql.Rows rows
  end.

(** [app.get('/api/travel/plans', ...)] *)
Definition get_api_travel_plans (d : Db.t) (q : gmap string string)
  : Sql.listing Listed.plan :=
  let '(query, params) := travel_plans_query q in
  match Listed.all_plans d query params with
  | inl _ => Sql.Failure (Reply 500 (message "Error fetching travel plans"))
  | inr rows => Sql.Rows rows
  end.

(** [app.get('/api/historical/sites', ...)] *)
Definition get_api_historical_sites (s : Sites.t) (q : gmap string string)
  : Sql.listing Js.json :=
  let '(query, params) := historical_sites_query q in
  match Sites.all s query params with
  | inl _ =>
      Sql.Failure (Reply 500 (message "Error fetching historical sites"))
  | inr rows => Sql.Rows (Site.json <$> rows)
  end.

End Listings.

(** ** A stand-in for the two operators of [sqlite3], and a store with
    rides to run the listings on *)

Module DemoSql.

Definition lower (c : ascii) : ascii :=
  let n := nat_of_ascii c in
  if ((65 <=? n) && (n <=? 90))%nat then ascii_of_nat (n + 32) else c.

(** [LIKE] on ASCII text: [%] stands for any run of characters, [_] for
    any one character, letters match without regard to case. *)
Fixpoint like (p t : string) {struct p} : bool :=
  match p with
  | EmptyString =>
      match t with
      | EmptyString => true
      | String _ _ => false
      end
  | String c p' =>
      if Ascii.eqb c "%" then
        (fix skip (t : string) : bool :=
           like p' t
           || match t with
              | EmptyString => false
              | String _ t' => skip t'
              end) t
      else
        match t with
        | EmptyString => false
        | String d t' =>
            (Ascii.eqb c "_" || Ascii.eqb (lower c) (lower d)) && like p' t'
        end
  end.

#[export] Instance sqlite : Sqlite :=
  {| sqlite_like := like; sqlite_numeric_leb := String.leb |}.

End DemoSql.

Module Roads.
Import Demo.

Definition bob_fields : list (string * string) :=
  [("email", "bob@example.com"); ("password", "hunter2"); ("name", "Bob");
   ("phone", "555-0100")].

(** The token of Alice's registration at clock 1000. *)
Definition first_token : string :=
  Eval vm_compute in
    default "" (Jwt.sign 1 (Some "alice@example.com")
                  "your-secret-key-here" "24h" 1000).

Definition alice_claims : Jwt.claims :=
  {| Jwt.userId := 1; Jwt.email := Some "alice@example.com";
     Jwt.iat := 2000; Jwt.exp := Some 88400 |}.


Definition as_user (c : Jwt.claims) (fields : list (string * string))
  : request :=
  {| headers := ∅; body := list_to_map fields; user := Some c |}.

Definition morning : Ride.row :=
  {| Ride.id := 1; Ride.user_id := 1; Ride.origin := "Downtown";
     Ride.destination := "Riverside Park";
     Ride.departure_time := "2025-01-01 09:00"; Ride.available_seats := "3";
     Ride.price_per_seat := None; Ride.description := None |}.

Definition evening : Ride.row :=
  {| Ride.id := 2; Ride.user_id := 1; Ride.origin := "Station District";
     Ride.destination := "Downtown";
     Ride.departure_time := "2025-01-01 18:30"; Ride.available_seats := "2";
     Ride.price_per_seat := Some "4.50"; Ride.description := None |}.

Definition trip : Plan.row :=
  {| Plan.id := 1; Plan.user_id := 1; Plan.destination := "Lisbon";
     Plan.start_date := "2025-06-01"; Plan.end_date := "2025-06-10";
     Plan.description := None; Plan.budget_range := None;
     Plan.interests := None |}.

Definition store : Db.t :=
  {| Db.users := [Scenario.alice]; Db.users_seq := 1;
     Db.carpool_rides := [evening; morning]; Db.carpool_rides_seq := 2;
     Db.travel_plans := [trip]; Db.travel_plans_seq := 1 |}.

Definition on_store : world := {| db := store; trace := [] |}.

Definition started_twice : Sites.t :=
  Sites.seed "2025-01-02 08:00:00"
    (Sites.seed "2025-01-01 08:00:00" Sites.empty).

End Roads.

(** * Properties *)

(** ** The helpers on concrete inputs *)

Example split_bearer : Js.split " " "Bearer abc.def" = ["Bearer"; "abc.def"].
Proof. reflexivity. Qed.

Example split_two_spaces : Js.split " " "Bearer  abc" = ["Bearer"; ""; "abc"].
Proof. reflexivity. Qed.

Example split_no_space : Js.split " " "abc" = ["abc"].
Proof. reflexivity. Qed.

Example ms_24h : Jwt.ms "24h" = Some 86400000.
Proof. reflexivity. Qed.

Example ms_bad : Jwt.ms "soon" = None.
Proof. reflexivity. Qed.

(** ** The stand-ins satisfy the laws of the packages *)

Lemma get_put_pos (p : positive) (rest : string) :
  Demo.get_pos (Demo.put_pos p rest) = Some (p, rest).
Proof.
  induction p as [q IH | q IH |]; cbn; [rewrite IH .. |]; reflexivity.
Qed.

Lemma get_put_Z (z : Z) (rest : string) :
  Demo.get_Z (Demo.put_Z z rest) = Some (z, rest).
Proof.
  destruct z; cbn; [| rewrite get_put_pos ..]; reflexivity.
Qed.

Lemma get_put_str (s rest : string) :
  Demo.get_str (Demo.put_str s rest) = Some (s, rest).
Proof.
  induction s as [| c s IH].
  - destruct rest; reflexivity.
  - cbn [Demo.put_str Demo.get_str]. rewrite IH. reflexivity.
Qed.

Lemma get_put_opt {A : Type} (put : A → string → string)
    (get : string → option (A * string)) :
  (∀ a rest, get (put a rest) = Some (a, rest)) →
  ∀ o rest, Demo.get_opt get (Demo.put_opt put o rest) = Some (o, rest).
Proof.
  intros Hrt [a |] rest; cbn; [rewrite Hrt |]; reflexivity.
Qed.

#[export] Instance demo_jws_laws : Jwt.JwsLaws Demo.jws.
Proof.
  constructor. intros [[uid mail issued expiry] sig].
  cbn. unfold Demo.parse, Demo.compact. cbn [Jwt.payload Jwt.userId
    Jwt.email Jwt.iat Jwt.exp Jwt.signature].
  rewrite get_put_Z.
  rewrite (get_put_opt Demo.put_str Demo.get_str get_put_str).
  rewrite get_put_Z.
  rewrite (get_put_opt Demo.put_Z Demo.get_Z get_put_Z).
  rewrite get_put_str. reflexivity.
Qed.

#[export] Instance demo_bcrypt_laws : BcryptLaws Demo.bcrypt.
Proof.
  constructor. intros s rounds salt. cbn. unfold Demo.check, Demo.digest.
  rewrite get_put_str, get_put_Z. apply String.eqb_refl.
Qed.

(** ** Start-up *)

(** With [JWT_SECRET] in the environment, that secret is the one in use. *)
Lemma startup_with_secret (process_env : gmap string string) (c : ascii)
    (s : string) :
  process_env !! "JWT_SECRET" = Some (String c s) →
  startup process_env = Listening {| JWT_SECRET := String c s |}.
Proof. intros H. unfold startup. rewrite H. reflexivity. Qed.

(** C9, as the specification states it, fails: with no [JWT_SECRET] in
    the environment the server is not refused, it listens. *)
Lemma startup_unset_secret_not_refused :
  (∅ : gmap string string) !! "JWT_SECRET" = None ∧
  startup ∅ = Listening {| JWT_SECRET := "your-secret-key-here" |} ∧
  ∀ why, startup ∅ ≠ Refused why.
Proof. split; [reflexivity |]. split; [reflexivity |]. intros why; discriminate. Qed.

(** C9, amended: when [JWT_SECRET] is unset (or set to the empty string)
    the server starts all the same, and the secret in use is the built-in
    default ['your-secret-key-here']. *)
Theorem startup_unset_secret_uses_default (process_env : gmap string string) :
  process_env !! "JWT_SECRET" = None ∨ process_env !! "JWT_SECRET" = Some "" →
  startup process_env = Listening {| JWT_SECRET := "your-secret-key-here" |}.
Proof. intros [H | H]; unfold startup; rewrite H; reflexivity. Qed.

Lemma startup_unset_secret_uses_default_witness :
  startup (<["PORT" := "8080"]> ∅)
  = Listening {| JWT_SECRET := "your-secret-key-here" |}.
Proof.
  apply (startup_unset_secret_uses_default (<["PORT" := "8080"]> ∅)).
  left. reflexivity.
Defined.

(** ** The store *)

Arguments Db.select_user_by_email : simpl never.
Arguments Db.insert_user : simpl never.
Arguments Db.insert_ride : simpl never.
Arguments Db.insert_plan : simpl never.
Arguments Jwt.sign : simpl never.
Arguments Jwt.verify : simpl never.

Lemma truthy_nonempty (s : string) : s ≠ "" → Js.truthy (Some s) = true.
Proof. destruct s; [congruence | reflexivity]. Qed.

Lemma subseteq_by_check (l allowed : list string) :
  forallb (λ k, bool_decide (k ∈ allowed)) l = true → l ⊆ allowed.
Proof.
  intros Hall k Hk. apply list_elem_of_In in Hk.
  rewrite forallb_forall in Hall. apply Hall in Hk.
  exact (bool_decide_eq_true_1 _ Hk).
Qed.

Lemma find_none_existsb {A : Type} (p : A → bool) (l : list A) :
  List.find p l = None → existsb p l = false.
Proof.
  induction l as [| a l IH]; cbn; [reflexivity |].
  destruct (p a); [discriminate | exact IH].
Qed.

Lemma find_app_last {A : Type} (p : A → bool) (l : list A) (a : A) :
  List.find p l = None → p a = true → List.find p (l ++ [a]) = Some a.
Proof.
  intros Hnone Hp. induction l as [| b l IH]; cbn in *.
  - rewrite Hp. reflexivity.
  - destruct (p b); [discriminate | auto].
Qed.

(** An email that no row has can be inserted, and is then found, in the
    row just written. *)
Lemma insert_fresh_user (d : Db.t) (e p n : string) (ph : Js.value) :
  Db.select_user_by_email d (Some e) = None →
  ∃ lastID d',
    Db.insert_user d (Some e) (Some p) (Some n) ph = inr (lastID, d') ∧
    Db.select_user_by_email d' (Some e)
    = Some {| User.id := lastID; User.email := e; User.password := p;
              User.name := n; User.phone := ph |}.
Proof.
  unfold Db.select_user_by_email, Db.insert_user. intros Hnone.
  rewrite (find_none_existsb _ _ Hnone).
  eexists _, _. split; [reflexivity |]. cbn.
  apply find_app_last; [exact Hnone | apply String.eqb_refl].
Qed.

(** ** Tokens *)

Section Tokens.
Context {J : Jwt.Jws}.

(** What [jwt.sign] returns for the span ['24h']: the payload carries the
    clock as [iat] and the clock plus 86400 seconds as [exp]. *)
Lemma sign_24h (uid : Z) (mail : Js.value) (secret : string) (now : Z) :
  Jwt.sign uid mail secret "24h" now
  = Some (Jwt.jws_compact
            {| Jwt.payload :=
                 {| Jwt.userId := uid; Jwt.email := mail; Jwt.iat := now;
                    Jwt.exp := Some (now + 86400) |};
               Jwt.signature :=
                 Jwt.jws_sign secret
                   {| Jwt.userId := uid; Jwt.email := mail; Jwt.iat := now;
                      Jwt.exp := Some (now + 86400) |} |}).
Proof. reflexivity. Qed.

(** A token that parses, with the signature of [secret], is accepted
    exactly when its expiry, if any, lies after the clock. *)
Lemma verify_parsed (token secret : string) (now : Z) (t : Jwt.jws) :
  Jwt.jws_parse token = Some t →
  Jwt.signature t = Jwt.jws_sign secret (Jwt.payload t) →
  Jwt.verify token secret now
  = match Jwt.exp (Jwt.payload t) with
    | Some e =>
        if e <=? now then inl (Jwt.TokenExpiredError e)
        else inr (Jwt.payload t)
    | None => inr (Jwt.payload t)
    end.
Proof.
  intros Hparse Hsig. unfold Jwt.verify. rewrite Hparse, Hsig.
  rewrite String.eqb_refl. reflexivity.
Qed.

(** A token whose expiry is not after the clock is refused, whatever its
    signature. *)
Lemma verify_expired (token secret : string) (now : Z) (t : Jwt.jws)
    (e : Z) :
  Jwt.jws_parse token = Some t →
  Jwt.exp (Jwt.payload t) = Some e →
  e <= now →
  ∃ err, Jwt.verify token secret now = inl err.
Proof.
  intros Hparse Hexp Hle. unfold Jwt.verify. rewrite Hparse, Hexp.
  destruct (String.eqb _ _); [| eauto].
  destruct (Z.leb_spec e now); [eauto | lia].
Qed.

Context {JL : Jwt.JwsLaws J}.

(** A token signed for 24 hours is accepted, with its payload, from the
    moment it is signed until 86400 seconds later. *)
Lemma verify_signed (uid : Z) (mail : Js.value) (secret token : string)
    (now later : Z) :
  Jwt.sign uid mail secret "24h" now = Some token →
  later < now + 86400 →
  Jwt.verify token secret later
  = inr {| Jwt.userId := uid; Jwt.email := mail; Jwt.iat := now;
           Jwt.exp := Some (now + 86400) |}.
Proof.
  rewrite sign_24h. intros [= <-] Hlt.
  erewrite verify_parsed; [| apply Jwt.jws_parse_compact | reflexivity].
  cbn.
  destruct (Z.leb_spec (now + 86400) later); [lia | reflexivity].
Qed.

End Tokens.

(** ** Registration and login *)

Ltac run_handler :=
  unfold post_api_register, post_api_login, create_ride, create_plan,
    db_get_user, db_insert_user, db_insert_ride, db_insert_plan,
    run_insert, emit, bind, ret.

Section Credentials.
Context {B : Bcrypt} {J : Jwt.Jws}.
Variable cfg : config.

(** C5: a registration that misses [email], [password] or [name] is
    answered 400 and leaves the world as it was: no lookup, no hashing and
    no insert took place; a login that misses [email] or [password] is
    answered 400 before any lookup. *)
Theorem missing_field_rejected_untouched (now : Z) (salt : string)
    (req : request) (w : world) :
  (Js.truthy (body req !! "email") = false
   ∨ Js.truthy (body req !! "password") = false
   ∨ Js.truthy (body req !! "name") = false →
   post_api_register cfg now salt req w
   = (Reply 400 (message "Email, password, and name are required"), w))
  ∧
  (Js.truthy (body req !! "email") = false
   ∨ Js.truthy (body req !! "password") = false →
   post_api_login cfg now req w
   = (Reply 400 (message "Email and password are required"), w)).
Proof.
  split.
  - intros Hmiss. unfold post_api_register.
    destruct Hmiss as [H | [H | H]]; rewrite H; cbn;
      rewrite ?orb_true_r; reflexivity.
  - intros Hmiss. unfold post_api_login.
    destruct Hmiss as [H | H]; rewrite H; cbn;
      rewrite ?orb_true_r; reflexivity.
Qed.

(** The calls of a registration, whatever the request: none, the lookup
    alone, or the lookup, the hashing and the insert in this order. *)
Lemma register_trace (now : Z) (salt : string) (req : request) (w : world) :
  let mail := body req !! "email" in
  ∃ calls,
    trace (snd (post_api_register cfg now salt req w)) = trace w ++ calls ∧
    (calls = []
     ∨ calls = [Select_user mail]
     ∨ calls = [Select_user mail;
                Bcrypt_hash (Js.str (body req !! "password"));
                Insert_user mail]).
Proof.
  intros mail. run_handler.
  destruct (negb _ || negb _ || negb _).
  { exists []. rewrite app_nil_r. auto. }
  cbn. destruct (Db.select_user_by_email (db w) (body req !! "email")).
  { exists [Select_user mail]. auto. }
  cbn. destruct (Db.insert_user _ _ _ _ _) as [e | [lastID d]]; cbn.
  - exists [Select_user mail; Bcrypt_hash (Js.str (body req !! "password"));
            Insert_user mail].
    rewrite <- !app_assoc. auto.
  - exists [Select_user mail; Bcrypt_hash (Js.str (body req !! "password"));
            Insert_user mail].
    destruct (Jwt.sign _ _ _ _ _); cbn; rewrite <- !app_assoc; auto.
Qed.

(** C4, amended: a registration that passes the presence check and whose
    email is in the store is answered 400 ['User already exists']; the
    store is unchanged and the lookup is the only call made (no hashing,
    no password comparison, no insert), so the answer does not depend on
    the password.  In every registration the lookup comes before the
    insert. *)
Theorem duplicate_email_rejected (now : Z) (salt : string) (req : request)
    (w : world) (u : User.row) :
  Js.truthy (body req !! "email") = true →
  Js.truthy (body req !! "password") = true →
  Js.truthy (body req !! "name") = true →
  Db.select_user_by_email (db w) (body req !! "email") = Some u →
  post_api_register cfg now salt req w
  = (Reply 400 (message "User already exists"),
     {| db := db w; trace := trace w ++ [Select_user (body req !! "email")] |})
  ∧
  ∀ (now' : Z) (salt' : string) (req' : request) (w' : world),
    ∃ calls,
      trace (snd (post_api_register cfg now' salt' req' w'))
      = trace w' ++ calls ∧
      (calls = []
       ∨ calls = [Select_user (body req' !! "email")]
       ∨ calls = [Select_user (body req' !! "email");
                  Bcrypt_hash (Js.str (body req' !! "password"));
                  Insert_user (body req' !! "email")]).
Proof.
  intros He Hp Hn Hsel. split.
  - run_handler. rewrite He, Hp, Hn. cbn. rewrite Hsel. reflexivity.
  - intros now' salt' req' w'. apply register_trace.
Qed.

(** C3, amended: of two logins that both pass the presence check, one
    with an email that is not in the store and one with an email that is
    and a password that does not match, both are answered with the same
    400 ['Invalid credentials'], and neither changes the store. *)
Theorem invalid_credentials_same_reply (now1 now2 : Z)
    (unknown wrong : request) (w : world) (u : User.row) :
  Js.truthy (body unknown !! "email") = true →
  Js.truthy (body unknown !! "password") = true →
  Js.truthy (body wrong !! "email") = true →
  Js.truthy (body wrong !! "password") = true →
  Db.select_user_by_email (db w) (body unknown !! "email") = None →
  Db.select_user_by_email (db w) (body wrong !! "email") = Some u →
  bcrypt_compare (Js.str (body wrong !! "password")) (User.password u)
  = false →
  fst (post_api_login cfg now1 unknown w)
  = Reply 400 (message "Invalid credentials") ∧
  fst (post_api_login cfg now2 wrong w)
  = Reply 400 (message "Invalid credentials") ∧
  db (snd (post_api_login cfg now1 unknown w)) = db w ∧
  db (snd (post_api_login cfg now2 wrong w)) = db w.
Proof.
  intros He1 Hp1 He2 Hp2 Habsent Hpresent Hcmp.
  run_handler. rewrite He1, Hp1, He2, Hp2. cbn.
  rewrite Habsent, Hpresent. cbn. rewrite Hcmp. cbn. auto.
Qed.

(** C1, amended: for a non-empty email, password and name, and an email
    that is not in the store yet, the registration is answered 201, a
    login with the same email and password against the store it leaves is
    answered 200, and the token of that login is accepted by [jwt.verify]
    with the server's secret until it expires, 86400 seconds after the
    login. *)
Theorem register_then_login {BL : BcryptLaws B} {JL : Jwt.JwsLaws J}
    (now1 now2 now3 : Z) (salt : string) (e p n : string)
    (reg log : request) (w : world) :
  e ≠ "" → p ≠ "" → n ≠ "" →
  body reg !! "email" = Some e →
  body reg !! "password" = Some p →
  body reg !! "name" = Some n →
  Db.select_user_by_email (db w) (Some e) = None →
  body log !! "email" = Some e →
  body log !! "password" = Some p →
  now2 <= now3 < now2 + 86400 →
  ∃ (lastID : Z) (token1 token2 : string) (w1 w2 : world),
    post_api_register cfg now1 salt reg w
    = (Reply 201
         (Js.JObj
            [("token", Js.JStr token1);
             ("user",
              Js.JObj ([("id", Js.JNum lastID); ("email", Js.JStr e);
                        ("name", Js.JStr n)]
                       ++ Js.prop "phone" (body reg !! "phone")))]), w1) ∧
    post_api_login cfg now2 log w1
    = (Reply 200
         (Js.JObj
            [("token", Js.JStr token2);
             ("user",
              Js.JObj [("id", Js.JNum lastID); ("email", Js.JStr e);
                       ("name", Js.JStr n);
                       ("phone", Js.nullable (body reg !! "phone"))])]),
       w2) ∧
    Jwt.verify token2 (JWT_SECRET cfg) now3
    = inr {| Jwt.userId := lastID; Jwt.email := Some e; Jwt.iat := now2;
             Jwt.exp := Some (now2 + 86400) |}.
Proof.
  intros He Hp Hn Hbe Hbp Hbn Hfresh Hle Hlp [_ Hlt].
  destruct (insert_fresh_user (db w) e (bcrypt_hash p 10 salt) n
              (body reg !! "phone") Hfresh) as (lastID & d' & Hins & Hsel).
  exists lastID.
  destruct (Jwt.sign lastID (Some e) (JWT_SECRET cfg) "24h" now1)
    as [token1 |] eqn:Hs1; [| rewrite sign_24h in Hs1; discriminate].
  destruct (Jwt.sign lastID (Some e) (JWT_SECRET cfg) "24h" now2)
    as [token2 |] eqn:Hs2; [| rewrite sign_24h in Hs2; discriminate].
  exists token1, token2. eexists _, _.
  split; [| split].
  - run_handler. rewrite Hbe, Hbp, Hbn.
    rewrite !truthy_nonempty by assumption. cbn.
    rewrite Hfresh. cbn. rewrite Hins. cbn. rewrite Hs1. reflexivity.
  - run_handler. rewrite Hle, Hlp.
    rewrite !truthy_nonempty by assumption. cbn.
    rewrite Hsel. cbn. rewrite bcrypt_compare_hash. cbn.
    rewrite Hs2. reflexivity.
  - apply (verify_signed _ _ _ _ _ _ Hs2 Hlt).
Qed.

(** C2: whatever the request and the store, the [user] object of a reply
    of the registration or of the login has no other keys than [id],
    [email], [name] and [phone]; in particular it has no [password]. *)
Theorem user_view_hides_password (now : Z) (salt : string) (req : request)
    (w : world) (status : Z) (json view : Js.json) :
  fst (post_api_register cfg now salt req w) = Reply status json
  ∨ fst (post_api_login cfg now req w) = Reply status json →
  Js.get "user" json = Some view →
  Js.keys view ⊆ ["id"; "email"; "name"; "phone"] ∧
  "password" ∉ Js.keys view.
Proof.
  assert (Hsub : ∀ keys : list string,
            keys ⊆ ["id"; "email"; "name"; "phone"] → "password" ∉ keys).
  { intros keys Hk Hin. apply Hk in Hin. revert Hin.
    apply (bool_decide_eq_false_1 _). reflexivity. }
  intros Hreply Hview.
  assert (Js.keys view ⊆ ["id"; "email"; "name"; "phone"]); [| auto].
  destruct Hreply as [Hreply | Hreply]; revert Hreply; run_handler.
  - destruct (negb _ || negb _ || negb _); cbn.
    { intros [= <- <-]. discriminate. }
    destruct (Db.select_user_by_email _ _); cbn.
    { intros [= <- <-]. discriminate. }
    destruct (Db.insert_user _ _ _ _ _) as [err | [lastID d]]; cbn.
    { intros [= <- <-]. discriminate. }
    destruct (Jwt.sign _ _ _ _ _); cbn; [| discriminate].
    intros [= <- <-]. cbn in Hview. injection Hview as <-.
    destruct (body req !! "email"), (body req !! "name"),
      (body req !! "phone"); cbn; apply subseteq_by_check; reflexivity.
  - destruct (negb _ || negb _); cbn.
    { intros [= <- <-]. discriminate. }
    destruct (Db.select_user_by_email _ _) as [u |]; cbn.
    2: { intros [= <- <-]. discriminate. }
    destruct (negb _); cbn.
    { intros [= <- <-]. discriminate. }
    destruct (Jwt.sign _ _ _ _ _); cbn; [| discriminate].
    intros [= <- <-]. cbn in Hview. injection Hview as <-.
    cbn. apply subseteq_by_check. reflexivity.
Qed.

End Credentials.

(** ** The authorization header *)

Lemma split_word (w rest : string) :
  Js.includes " " w = false →
  Js.split " " (w +:+ " " +:+ rest) = w :: Js.split " " rest.
Proof.
  induction w as [| c w IH]; [reflexivity |].
  intros Hno. apply orb_false_iff in Hno as [Hc Hw].
  change (String c w +:+ " " +:+ rest) with (String c (w +:+ " " +:+ rest)).
  cbn [Js.split]. rewrite Hc, (IH Hw). reflexivity.
Qed.

Lemma split_single (s : string) :
  Js.includes " " s = false → Js.split " " s = [s].
Proof.
  induction s as [| c s IH]; [reflexivity |].
  intros Hno. apply orb_false_iff in Hno as [Hc Hs]. cbn [Js.split].
  rewrite Hc, (IH Hs). reflexivity.
Qed.

(** The second segment of [scheme token], both without a space, is
    [token]. *)
Lemma split_scheme_token (scheme token : string) :
  Js.includes " " scheme = false →
  Js.includes " " token = false →
  Js.split " " (scheme +:+ " " +:+ token) !! 1%nat = Some token.
Proof.
  intros Hs Ht. rewrite (split_word _ _ Hs), (split_single _ Ht).
  reflexivity.
Qed.

Lemma truthy_some (v : Js.value) :
  Js.truthy v = true → ∃ s, v = Some s ∧ s ≠ "".
Proof.
  destruct v as [[| c s] |]; cbn; try discriminate.
  intros _. eexists. split; [reflexivity | discriminate].
Qed.

Section Authorization.
Context {B : Bcrypt} {J : Jwt.Jws}.
Variable cfg : config.

(** With no non-empty second segment in the header, the middleware
    answers 401. *)
Lemma authenticate_without_token (now : Z) (req : request) :
  (∀ h token, headers req !! "authorization" = Some h →
              Js.split " " h !! 1%nat = Some token → token = "") →
  authenticateToken cfg now req
  = inl (Reply 401 (message "Access token required")).
Proof.
  intros Hnone. unfold authenticateToken.
  destruct (headers req !! "authorization") as [[| c h] |];
    [reflexivity | | reflexivity].
  specialize (Hnone (String c h)). cbn [Js.and_then].
  destruct (Js.split " " (String c h) !! 1%nat) as [token |];
    [| reflexivity].
  rewrite (Hnone token eq_refl eq_refl). reflexivity.
Qed.

(** With a non-empty second segment, the middleware answers as
    [jwt.verify] decides on that segment. *)
Lemma authenticate_with_token (now : Z) (req : request) (h token : string) :
  headers req !! "authorization" = Some h →
  Js.split " " h !! 1%nat = Some token →
  token ≠ "" →
  authenticateToken cfg now req
  = match Jwt.verify token (JWT_SECRET cfg) now with
    | inl _ => inl (Reply 403 (message "Invalid token"))
    | inr decoded =>
        inr {| headers := headers req; body := body req;
               user := Some decoded |}
    end.
Proof.
  intros Hh Hsplit Hne. unfold authenticateToken. rewrite Hh.
  destruct h as [| c h]; [discriminate |].
  cbn [Js.and_then]. rewrite Hsplit.
  destruct token; [congruence | reflexivity].
Qed.

(** C6: on a protected route the middleware answers 401 when the header
    carries no token and 403 when [jwt.verify] refuses the token, and the
    handler behind it does not run; when the token is accepted the decoded
    payload becomes [req.user], and the ride or travel plan the handler
    then creates has the [userId] of that payload as its [user_id],
    whatever the body of the request holds. *)
Theorem authorize_then_stamp (now : Z) (req : request) (w : world) :
  ((∀ h token, headers req !! "authorization" = Some h →
               Js.split " " h !! 1%nat = Some token → token = "") →
   ∀ handler : request → M reply,
     guarded cfg now handler req w
     = (Reply 401 (message "Access token required"), w))
  ∧
  (∀ h token err,
     headers req !! "authorization" = Some h →
     Js.split " " h !! 1%nat = Some token → token ≠ "" →
     Jwt.verify token (JWT_SECRET cfg) now = inl err →
     ∀ handler : request → M reply,
       guarded cfg now handler req w
       = (Reply 403 (message "Invalid token"), w))
  ∧
  (∀ h token decoded,
     headers req !! "authorization" = Some h →
     Js.split " " h !! 1%nat = Some token → token ≠ "" →
     Jwt.verify token (JWT_SECRET cfg) now = inr decoded →
     authenticateToken cfg now req
     = inr {| headers := headers req; body := body req;
              user := Some decoded |}
     ∧
     (let complete :=
        Js.truthy (body req !! "origin")
        && Js.truthy (body req !! "destination")
        && Js.truthy (body req !! "departure_time")
        && Js.truthy (body req !! "available_seats") in
      let '(r, w') := post_api_carpool_rides cfg now req w in
      (complete = false
       ∧ r = Reply 400 (message "All required fields must be provided")
       ∧ w' = w)
      ∨
      (complete = true
       ∧ ∃ row : Ride.row,
           r = Reply 201
                 (Js.JObj
                    [("id", Js.JNum (Ride.id row));
                     ("message", Js.JStr "Ride created successfully")])
           ∧ Db.carpool_rides (db w') = Db.carpool_rides (db w) ++ [row]
           ∧ Ride.user_id row = Jwt.userId decoded))
     ∧
     (let complete :=
        Js.truthy (body req !! "destination")
        && Js.truthy (body req !! "start_date")
        && Js.truthy (body req !! "end_date") in
      let '(r, w') := post_api_travel_plans cfg now req w in
      (complete = false
       ∧ r = Reply 400
               (message "Destination, start date, and end date are required")
       ∧ w' = w)
      ∨
      (complete = true
       ∧ ∃ row : Plan.row,
           r = Reply 201
                 (Js.JObj
                    [("id", Js.JNum (Plan.id row));
                     ("message",
                      Js.JStr "Travel plan created successfully")])
           ∧ Db.travel_plans (db w') = Db.travel_plans (db w) ++ [row]
           ∧ Plan.user_id row = Jwt.userId decoded))).
Proof.
  split; [| split].
  - intros Hnone handler. unfold guarded.
    rewrite (authenticate_without_token now req Hnone). reflexivity.
  - intros h token err Hh Hsplit Hne Hverify handler. unfold guarded.
    rewrite (authenticate_with_token now req h token Hh Hsplit Hne).
    rewrite Hverify. reflexivity.
  - intros h token decoded Hh Hsplit Hne Hverify.
    pose proof (authenticate_with_token now req h token Hh Hsplit Hne)
      as Hauth.
    rewrite Hverify in Hauth.
    split; [exact Hauth |]. split.
    + unfold post_api_carpool_rides, guarded. rewrite Hauth.
      run_handler. cbn [body user].
      destruct (Js.truthy (body req !! "origin")) eqn:H1; cbn; [| auto].
      destruct (Js.truthy (body req !! "destination")) eqn:H2; cbn;
        [| auto].
      destruct (Js.truthy (body req !! "departure_time")) eqn:H3; cbn;
        [| auto].
      destruct (Js.truthy (body req !! "available_seats")) eqn:H4; cbn;
        [| auto].
      apply truthy_some in H1 as (o & -> & _).
      apply truthy_some in H2 as (de & -> & _).
      apply truthy_some in H3 as (dt & -> & _).
      apply truthy_some in H4 as (se & -> & _).
      right. split; [reflexivity |].
      unfold Db.insert_ride. cbn. eexists. split; [| split].
      2: reflexivity.
      all: reflexivity.
    + unfold post_api_travel_plans, guarded. rewrite Hauth.
      run_handler. cbn [body user].
      destruct (Js.truthy (body req !! "destination")) eqn:H1; cbn;
        [| auto].
      destruct (Js.truthy (body req !! "start_date")) eqn:H2; cbn;
        [| auto].
      destruct (Js.truthy (body req !! "end_date")) eqn:H3; cbn; [| auto].
      apply truthy_some in H1 as (de & -> & _).
      apply truthy_some in H2 as (sd & -> & _).
      apply truthy_some in H3 as (ed & -> & _).
      right. split; [reflexivity |].
      unfold Db.insert_plan. cbn. eexists. split; [| split].
      2: reflexivity.
      all: reflexivity.
Qed.

(** C7: a token that the middleware hands to [jwt.verify] is refused
    exactly when it does not parse, when its signature is not the one of
    the server's secret, or when it has expired; in each of these cases
    the answer is one and the same, 403 with ['Invalid token']. *)
Theorem invalid_token_one_reply (now : Z) (req : request) (h token : string) :
  headers req !! "authorization" = Some h →
  Js.split " " h !! 1%nat = Some token →
  token ≠ "" →
  (Jwt.jws_parse token = None
   ∨ (∃ t, Jwt.jws_parse token = Some t ∧
           Jwt.signature t ≠ Jwt.jws_sign (JWT_SECRET cfg) (Jwt.payload t))
   ∨ (∃ t e, Jwt.jws_parse token = Some t ∧
             Jwt.exp (Jwt.payload t) = Some e ∧ e <= now)
   ↔ ∃ err, Jwt.verify token (JWT_SECRET cfg) now = inl err)
  ∧
  ((∃ err, Jwt.verify token (JWT_SECRET cfg) now = inl err) →
   authenticateToken cfg now req
   = inl (Reply 403 (message "Invalid token"))).
Proof.
  intros Hh Hsplit Hne. split; [split |].
  - intros [Hparse | [(t & Hparse & Hsig) | (t & e & Hparse & He & Hle)]].
    + unfold Jwt.verify. rewrite Hparse. eauto.
    + unfold Jwt.verify. rewrite Hparse.
      destruct (String.eqb_spec (Jwt.signature t)
                  (Jwt.jws_sign (JWT_SECRET cfg) (Jwt.payload t)));
        [contradiction | eauto].
    + exact (verify_expired token (JWT_SECRET cfg) now t e Hparse He Hle).
  - intros [err Herr]. unfold Jwt.verify in Herr.
    destruct (Jwt.jws_parse token) as [t |]; [| auto].
    destruct (String.eqb_spec (Jwt.signature t)
                (Jwt.jws_sign (JWT_SECRET cfg) (Jwt.payload t)));
      [| eauto].
    destruct (Jwt.exp (Jwt.payload t)) as [expiry |] eqn:Hexp;
      [| discriminate].
    destruct (Z.leb_spec expiry now); [| discriminate].
    right. right. eauto.
  - intros [err Herr].
    rewrite (authenticate_with_token now req h token Hh Hsplit Hne), Herr.
    reflexivity.
Qed.

(** C8: for every [userId] and [email], [jwt.sign] with ['24h'] gives a
    token whose expiry is 86400 seconds after the clock and which
    [jwt.verify], applied at once, returns with that [userId] and [email].
    This is what the two handlers issue: the token of a 201 of the
    registration carries the id of the new row and the email of the
    request, the token of a 200 of the login carries the id and the email
    of the stored row, both expire 86400 seconds after the clock, both are
    returned by [jwt.verify] at once, and the middleware hands their
    payload on as [req.user].  A token whose expiry lies before the clock
    is refused by [jwt.verify] and answered 403 ['Invalid token'] by the
    middleware. *)
Theorem issue_then_verify {JL : Jwt.JwsLaws J} (uid : Z) (mail : Js.value)
    (now : Z) :
  (∃ token,
     Jwt.sign uid mail (JWT_SECRET cfg) "24h" now = Some token ∧
     Jwt.verify token (JWT_SECRET cfg) now
     = inr {| Jwt.userId := uid; Jwt.email := mail; Jwt.iat := now;
              Jwt.exp := Some (now + 24 * 60 * 60) |})
  ∧
  (∀ (salt : string) (reg : request) (w : world),
     Js.truthy (body reg !! "email") = true →
     Js.truthy (body reg !! "password") = true →
     Js.truthy (body reg !! "name") = true →
     Db.select_user_by_email (db w) (body reg !! "email") = None →
     ∃ (token : string) (lastID : Z) (view : list (string * Js.json))
       (w1 : world),
       post_api_register cfg now salt reg w
       = (Reply 201
            (Js.JObj [("token", Js.JStr token);
                      ("user", Js.JObj (("id", Js.JNum lastID) :: view))]),
          w1)
       ∧ Jwt.verify token (JWT_SECRET cfg) now
         = inr {| Jwt.userId := lastID; Jwt.email := body reg !! "email";
                  Jwt.iat := now; Jwt.exp := Some (now + 24 * 60 * 60) |}
       ∧ ∀ (req : request) (h : string),
           headers req !! "authorization" = Some h →
           Js.split " " h !! 1%nat = Some token →
           token ≠ "" →
           authenticateToken cfg now req
           = inr {| headers := headers req; body := body req;
                    user := Some {| Jwt.userId := lastID;
                                    Jwt.email := body reg !! "email";
                                    Jwt.iat := now;
                                    Jwt.exp := Some (now + 24 * 60 * 60) |}
                 |})
  ∧
  (∀ (log : request) (w : world) (u : User.row),
     Js.truthy (body log !! "email") = true →
     Js.truthy (body log !! "password") = true →
     Db.select_user_by_email (db w) (body log !! "email") = Some u →
     bcrypt_compare (Js.str (body log !! "password")) (User.password u)
     = true →
     ∃ (token : string) (view : Js.json) (w1 : world),
       post_api_login cfg now log w
       = (Reply 200
            (Js.JObj [("token", Js.JStr token); ("user", view)]), w1)
       ∧ Jwt.verify token (JWT_SECRET cfg) now
         = inr {| Jwt.userId := User.id u; Jwt.email := Some (User.email u);
                  Jwt.iat := now; Jwt.exp := Some (now + 24 * 60 * 60) |}
       ∧ ∀ (req : request) (h : string),
           headers req !! "authorization" = Some h →
           Js.split " " h !! 1%nat = Some token →
           token ≠ "" →
           authenticateToken cfg now req
           = inr {| headers := headers req; body := body req;
                    user := Some {| Jwt.userId := User.id u;
                                    Jwt.email := Some (User.email u);
                                    Jwt.iat := now;
                                    Jwt.exp := Some (now + 24 * 60 * 60) |}
                 |})
  ∧
  (∀ (token : string) (t : Jwt.jws) (e : Z),
     Jwt.jws_parse token = Some t →
     Jwt.exp (Jwt.payload t) = Some e →
     e < now →
     (∃ err, Jwt.verify token (JWT_SECRET cfg) now = inl err) ∧
     ∀ (req : request) (h : string),
       headers req !! "authorization" = Some h →
       Js.split " " h !! 1%nat = Some token →
       token ≠ "" →
       authenticateToken cfg now req
       = inl (Reply 403 (message "Invalid token"))).
Proof.
  assert (Hnow : now < now + 86400) by lia.
  split; [| split; [| split]].
  - eexists. split; [apply sign_24h |].
    apply (verify_signed uid mail); [apply sign_24h | lia].
  - intros salt reg w He Hp Hn Hfresh.
    apply truthy_some in He as (e & He & Hene).
    apply truthy_some in Hp as (p & Hp & Hpne).
    apply truthy_some in Hn as (n & Hn & Hnne).
    rewrite He in Hfresh.
    destruct (insert_fresh_user (db w) e (bcrypt_hash p 10 salt) n
                (body reg !! "phone") Hfresh) as (lastID & d' & Hins & _).
    destruct (Jwt.sign lastID (Some e) (JWT_SECRET cfg) "24h" now)
      as [token |] eqn:Hsign; [| rewrite sign_24h in Hsign; discriminate].
    pose proof (verify_signed _ _ _ _ _ now Hsign Hnow) as Hverify.
    exists token, lastID. eexists _, _. split; [| split].
    + run_handler. rewrite He, Hp, Hn.
      rewrite !truthy_nonempty by assumption. cbn.
      rewrite Hfresh. cbn. rewrite Hins. cbn. rewrite Hsign. reflexivity.
    + rewrite He. exact Hverify.
    + intros req h Hh Hsplit Hne.
      rewrite (authenticate_with_token now req h token Hh Hsplit Hne).
      rewrite Hverify, He. reflexivity.
  - intros log w u He Hp Hsel Hcmp.
    destruct (Jwt.sign (User.id u) (Some (User.email u)) (JWT_SECRET cfg)
                "24h" now)
      as [token |] eqn:Hsign; [| rewrite sign_24h in Hsign; discriminate].
    pose proof (verify_signed _ _ _ _ _ now Hsign Hnow) as Hverify.
    exists token. eexists _, _. split; [| split].
    + run_handler. rewrite He, Hp. cbn. rewrite Hsel. cbn.
      rewrite Hcmp. cbn. rewrite Hsign. reflexivity.
    + exact Hverify.
    + intros req h Hh Hsplit Hne.
      rewrite (authenticate_with_token now req h token Hh Hsplit Hne).
      rewrite Hverify. reflexivity.
  - intros token t e Hparse He Hlt.
    assert (Hle : e <= now) by lia.
    destruct (verify_expired token (JWT_SECRET cfg) now t e Hparse He Hle)
      as [err Herr].
    split; [eauto |].
    intros req h Hh Hsplit Hne.
    rewrite (authenticate_with_token now req h token Hh Hsplit Hne), Herr.
    reflexivity.
Qed.

(** C10: the middleware does not look at the scheme.  For a header
    [scheme token], two words without a space, the answer is the one
    [jwt.verify] gives for [token], whatever [scheme] is, so that
    ['Basic '] in front of a valid token is accepted like ['Bearer ']; a
    header without a space is answered 401, not 403. *)
Theorem scheme_not_checked (now : Z) (req : request) :
  (∀ scheme token : string,
     Js.includes " " scheme = false →
     Js.includes " " token = false →
     token ≠ "" →
     headers req !! "authorization" = Some (scheme +:+ " " +:+ token) →
     authenticateToken cfg now req
     = match Jwt.verify token (JWT_SECRET cfg) now with
       | inl _ => inl (Reply 403 (message "Invalid token"))
       | inr decoded =>
           inr {| headers := headers req; body := body req;
                  user := Some decoded |}
       end)
  ∧
  (∀ (token : string) (decoded : Jwt.claims),
     Js.includes " " token = false →
     token ≠ "" →
     Jwt.verify token (JWT_SECRET cfg) now = inr decoded →
     (headers req !! "authorization" = Some ("Basic " +:+ token)
      ∨ headers req !! "authorization" = Some ("Bearer " +:+ token)) →
     authenticateToken cfg now req
     = inr {| headers := headers req; body := body req;
              user := Some decoded |})
  ∧
  (∀ h : string,
     headers req !! "authorization" = Some h →
     Js.includes " " h = false →
     authenticateToken cfg now req
     = inl (Reply 401 (message "Access token required"))).
Proof.
  assert (Hword : ∀ scheme token : string,
            Js.includes " " scheme = false →
            Js.includes " " token = false →
            token ≠ "" →
            headers req !! "authorization"
            = Some (scheme +:+ " " +:+ token) →
            authenticateToken cfg now req
            = match Jwt.verify token (JWT_SECRET cfg) now with
              | inl _ => inl (Reply 403 (message "Invalid token"))
              | inr decoded =>
                  inr {| headers := headers req; body := body req;
                         user := Some decoded |}
              end).
  { intros scheme token Hs Ht Hne Hh.
    apply (authenticate_with_token now req _ token Hh); [| exact Hne].
    apply split_scheme_token; assumption. }
  split; [exact Hword |]. split.
  - intros token decoded Ht Hne Hverify [Hh | Hh].
    + rewrite (Hword "Basic" token eq_refl Ht Hne Hh), Hverify.
      reflexivity.
    + rewrite (Hword "Bearer" token eq_refl Ht Hne Hh), Hverify.
      reflexivity.
  - intros h Hh Hno. apply authenticate_without_token.
    intros h' token Hh' Hsplit. rewrite Hh in Hh'. injection Hh' as <-.
    rewrite (split_single h Hno) in Hsplit. discriminate.
Qed.

End Authorization.

(** ** What the handlers keep and what they answer *)

Lemma next_rowid_above (seq : Z) (ids : list Z) :
  seq < Db.next_rowid seq ids ∧ ∀ i, i ∈ ids → i < Db.next_rowid seq ids.
Proof.
  unfold Db.next_rowid. induction ids as [| j ids [IHseq IHids]]; cbn.
  - split; [lia |]. intros i Hi. inversion Hi.
  - split; [lia |]. intros i Hi.
    apply elem_of_cons in Hi as [-> | Hi]; [lia |].
    specialize (IHids i Hi). lia.
Qed.

Lemma next_rowid_fresh (seq : Z) (ids : list Z) :
  NoDup ids → NoDup (ids ++ [Db.next_rowid seq ids]).
Proof.
  intros Hnd. apply NoDup_app. split; [exact Hnd |]. split.
  - intros i Hi Hin. apply list_elem_of_singleton in Hin.
    destruct (next_rowid_above seq ids) as [_ Habove].
    specialize (Habove i Hi). lia.
  - apply NoDup_singleton.
Qed.

Lemma find_email_none (e : string) (l : list User.row) :
  List.find (λ r, String.eqb (User.email r) e) l = None →
  e ∉ User.email <$> l.
Proof.
  induction l as [| r l IH]; cbn; [intros _ Hin; inversion Hin |].
  destruct (String.eqb_spec (User.email r) e) as [| Hne]; [discriminate |].
  intros Hnone Hin. apply elem_of_cons in Hin as [-> | Hin];
    [congruence | exact (IH Hnone Hin)].
Qed.

Section Outcomes.
Context {B : Bcrypt} {J : Jwt.Jws}.
Variable cfg : config.

(** X1: the three answers of a registration that runs alone.  For a
    request whose fields are strings or absent, handled on the store
    without another registration in between and without a fault of the
    database, the answer is the validation message and nothing changes,
    or ['User already exists'] and the store is unchanged, or 201, and
    then one row was appended to [users] with the email and name of the
    request and the digest of its password at cost 10.  In such a run the
    insert follows a lookup that found no row, so it meets no constraint
    and the 500 ['Error creating user'] branch is not taken. *)
Theorem register_outcomes (now : Z) (salt : string) (req : request)
    (w : world) :
  let email := body req !! "email" in
  let password := body req !! "password" in
  let name := body req !! "name" in
  let present := Js.truthy email && Js.truthy password && Js.truthy name in
  let '(r, w') := post_api_register cfg now salt req w in
  (present = false
   ∧ r = Reply 400 (message "Email, password, and name are required")
   ∧ w' = w)
  ∨
  (present = true
   ∧ (∃ u, Db.select_user_by_email (db w) email = Some u)
   ∧ r = Reply 400 (message "User already exists")
   ∧ db w' = db w)
  ∨
  (present = true
   ∧ Db.select_user_by_email (db w) email = None
   ∧ ∃ (token : string) (row : User.row),
       r = Reply 201
             (Js.JObj
                [("token", Js.JStr token);
                 ("user",
                  Js.JObj ([("id", Js.JNum (User.id row))]
                           ++ Js.prop "email" email
                           ++ Js.prop "name" name
                           ++ Js.prop "phone" (body req !! "phone")))])
       ∧ Jwt.sign (User.id row) email (JWT_SECRET cfg) "24h" now = Some token
       ∧ Db.users (db w') = Db.users (db w) ++ [row]
       ∧ Some (User.email row) = email
       ∧ Some (User.name row) = name
       ∧ User.phone row = body req !! "phone"
       ∧ User.password row = bcrypt_hash (Js.str password) 10 salt).
Proof.
  intros email password name present. subst present email password name.
  run_handler.
  destruct (Js.truthy (body req !! "email")) eqn:He; cbn; [| auto].
  destruct (Js.truthy (body req !! "password")) eqn:Hp; cbn; [| auto].
  destruct (Js.truthy (body req !! "name")) eqn:Hn; cbn; [| auto].
  destruct (Db.select_user_by_email (db w) (body req !! "email"))
    as [u |] eqn:Hsel; cbn.
  { right. left. eauto. }
  apply truthy_some in He as (e & He & _).
  apply truthy_some in Hp as (p & Hp & _).
  apply truthy_some in Hn as (n & Hn & _).
  rewrite He, Hp, Hn in *. cbn.
  destruct (insert_fresh_user (db w) e (bcrypt_hash p 10 salt) n
              (body req !! "phone") Hsel) as (lastID & d' & Hins & _).
  rewrite Hins. cbn. rewrite sign_24h. cbn.
  unfold Db.insert_user in Hins.
  destruct (existsb _ _); [discriminate |].
  injection Hins as <- <-. cbn.
  right. right. split; [reflexivity |]. split; [reflexivity |].
  eexists.
  exists {| User.id := Db.next_rowid (Db.users_seq (db w))
                         (User.id <$> Db.users (db w));
            User.email := e; User.password := bcrypt_hash p 10 salt;
            User.name := n; User.phone := body req !! "phone" |}.
  split; [reflexivity |].
  split; [apply sign_24h |]. split; [reflexivity |]. cbn. auto.
Qed.

(** X2: a registration touches the [users] table alone and appends at
    most one row to it; if no two users had the same email or the same id
    before, none have after. *)
Theorem register_keeps_users_unique (now : Z) (salt : string)
    (req : request) (w : world) :
  NoDup (User.email <$> Db.users (db w)) →
  NoDup (User.id <$> Db.users (db w)) →
  let d' := db (snd (post_api_register cfg now salt req w)) in
  NoDup (User.email <$> Db.users d')
  ∧ NoDup (User.id <$> Db.users d')
  ∧ (Db.users d' = Db.users (db w)
     ∨ ∃ row, Db.users d' = Db.users (db w) ++ [row])
  ∧ Db.carpool_rides d' = Db.carpool_rides (db w)
  ∧ Db.travel_plans d' = Db.travel_plans (db w).
Proof.
  intros Hemails Hids. cbn zeta. run_handler.
  destruct (negb _ || negb _ || negb _) eqn:Hmiss; cbn; [auto 6 |].
  destruct (Db.select_user_by_email (db w) (body req !! "email"))
    as [u |] eqn:Hsel; cbn; [auto 6 |].
  unfold Db.insert_user.
  destruct (body req !! "email") as [e |] eqn:He; [| cbn; auto 6].
  destruct (body req !! "name") as [n |]; [| cbn; auto 6].
  unfold Db.select_user_by_email in Hsel.
  rewrite (find_none_existsb _ _ Hsel).
  assert (Hdone :
    NoDup (User.email <$> Db.users (db w) ++
             [{| User.id := Db.next_rowid (Db.users_seq (db w))
                              (User.id <$> Db.users (db w));
                 User.email := e;
                 User.password := bcrypt_hash (Js.str (body req !! "password"))
                                    10 salt;
                 User.name := n; User.phone := body req !! "phone" |}])
    ∧ NoDup (User.id <$> Db.users (db w) ++
               [{| User.id := Db.next_rowid (Db.users_seq (db w))
                                (User.id <$> Db.users (db w));
                   User.email := e;
                   User.password :=
                     bcrypt_hash (Js.str (body req !! "password")) 10 salt;
                   User.name := n; User.phone := body req !! "phone" |}])).
  { rewrite !fmap_app. cbn. split.
    - apply NoDup_app. split; [exact Hemails |]. split.
      + intros x Hx Hin. apply list_elem_of_singleton in Hin. subst x.
        exact (find_email_none e _ Hsel Hx).
      + apply NoDup_singleton.
    - apply next_rowid_fresh. exact Hids. }
  destruct Hdone as [Hdone1 Hdone2].
  cbn. destruct (Jwt.sign _ _ _ _ _); cbn; eauto 7.
Qed.

(** X3: a login never writes to the store, and it is answered 200
    exactly when both fields are present, the email is in the store and
    [bcrypt.compare] accepts the password against the stored digest; the
    [user] of that answer is read from the stored row. *)
Theorem login_outcomes (now : Z) (req : request) (w : world) :
  db (snd (post_api_login cfg now req w)) = db w
  ∧
  ((∃ json, fst (post_api_login cfg now req w) = Reply 200 json)
   ↔ Js.truthy (body req !! "email") = true
     ∧ Js.truthy (body req !! "password") = true
     ∧ ∃ u, Db.select_user_by_email (db w) (body req !! "email") = Some u
            ∧ bcrypt_compare (Js.str (body req !! "password"))
                (User.password u) = true)
  ∧
  (∀ json u,
     fst (post_api_login cfg now req w) = Reply 200 json →
     Db.select_user_by_email (db w) (body req !! "email") = Some u →
     Js.get "user" json
     = Some (Js.JObj [("id", Js.JNum (User.id u));
                      ("email", Js.JStr (User.email u));
                      ("name", Js.JStr (User.name u));
                      ("phone", Js.nullable (User.phone u))])).
Proof.
  run_handler.
  destruct (Js.truthy (body req !! "email")) eqn:He; cbn.
  2: { split; [reflexivity |]. split.
       - split; [intros [json [=]] | intros [[=] _]].
       - intros json u [=]. }
  destruct (Js.truthy (body req !! "password")) eqn:Hp; cbn.
  2: { split; [reflexivity |]. split.
       - split; [intros [json [=]] | intros (_ & [=] & _)].
       - intros json u [=]. }
  destruct (Db.select_user_by_email (db w) (body req !! "email"))
    as [u |] eqn:Hsel; cbn.
  2: { split; [reflexivity |]. split.
       - split; [intros [json [=]] | intros (_ & _ & u & [=] & _)].
       - intros json u [=]. }
  destruct (bcrypt_compare _ _) eqn:Hcmp; cbn.
  2: { split; [reflexivity |]. split.
       - split; [intros [json [=]] |].
         intros (_ & _ & u' & [= <-] & Hcmp'). congruence.
       - intros json u' [=]. }
  rewrite sign_24h. cbn. split; [reflexivity |]. split.
  - split; [eauto 6 | eauto].
  - intros json u' [= <-] [= <-]. reflexivity.
Qed.

(** X4: the handler behind a protected route leaves [users] alone and
    appends at most one row to its own table; the row gets an id above
    every id of the table, which is the [id] of the 201 answer, so that
    ids that were distinct stay distinct. *)
Theorem created_rows_get_fresh_ids (req : request) (w : world) :
  (let '(r, w') := create_ride req w in
   Db.users (db w') = Db.users (db w)
   ∧ Db.travel_plans (db w') = Db.travel_plans (db w)
   ∧ (NoDup (Ride.id <$> Db.carpool_rides (db w)) →
      NoDup (Ride.id <$> Db.carpool_rides (db w')))
   ∧ ((Db.carpool_rides (db w') = Db.carpool_rides (db w)
       ∧ ∀ json, r ≠ Reply 201 json)
      ∨ ∃ row,
          Db.carpool_rides (db w') = Db.carpool_rides (db w) ++ [row]
          ∧ r = Reply 201
                  (Js.JObj [("id", Js.JNum (Ride.id row));
                            ("message",
                             Js.JStr "Ride created successfully")])
          ∧ ∀ old, old ∈ Db.carpool_rides (db w) →
                   Ride.id old < Ride.id row))
  ∧
  (let '(r, w') := create_plan req w in
   Db.users (db w') = Db.users (db w)
   ∧ Db.carpool_rides (db w') = Db.carpool_rides (db w)
   ∧ (NoDup (Plan.id <$> Db.travel_plans (db w)) →
      NoDup (Plan.id <$> Db.travel_plans (db w')))
   ∧ ((Db.travel_plans (db w') = Db.travel_plans (db w)
       ∧ ∀ json, r ≠ Reply 201 json)
      ∨ ∃ row,
          Db.travel_plans (db w') = Db.travel_plans (db w) ++ [row]
          ∧ r = Reply 201
                  (Js.JObj [("id", Js.JNum (Plan.id row));
                            ("message",
                             Js.JStr "Travel plan created successfully")])
          ∧ ∀ old, old ∈ Db.travel_plans (db w) →
                   Plan.id old < Plan.id row)).
Proof.
  split.
  - run_handler.
    destruct (negb _ || negb _ || negb _ || negb _); cbn.
    { split; [reflexivity |]. split; [reflexivity |]. split; [auto |].
      left. split; [reflexivity | discriminate]. }
    destruct (user req) as [u |]; cbn.
    2: { split; [reflexivity |]. split; [reflexivity |]. split; [auto |].
         left. split; [reflexivity | discriminate]. }
    unfold Db.insert_ride.
    destruct (body req !! "origin") as [o |],
      (body req !! "destination") as [de |],
      (body req !! "departure_time") as [dt |],
      (body req !! "available_seats") as [se |]; cbn;
      try (split; [reflexivity |]; split; [reflexivity |]; split; [auto |];
           left; split; [reflexivity | discriminate]).
    split; [reflexivity |]. split; [reflexivity |]. split.
    + intros Hnd. rewrite fmap_app. cbn. apply next_rowid_fresh, Hnd.
    + right. eexists. split; [reflexivity |]. split; [reflexivity |].
      intros old Hold. cbn.
      apply (next_rowid_above (Db.carpool_rides_seq (db w))).
      apply list_elem_of_fmap. eauto.
  - run_handler.
    destruct (negb _ || negb _ || negb _); cbn.
    { split; [reflexivity |]. split; [reflexivity |]. split; [auto |].
      left. split; [reflexivity | discriminate]. }
    destruct (user req) as [u |]; cbn.
    2: { split; [reflexivity |]. split; [reflexivity |]. split; [auto |].
         left. split; [reflexivity | discriminate]. }
    unfold Db.insert_plan.
    destruct (body req !! "destination") as [de |],
      (body req !! "start_date") as [sd |],
      (body req !! "end_date") as [ed |]; cbn;
      try (split; [reflexivity |]; split; [reflexivity |]; split; [auto |];
           left; split; [reflexivity | discriminate]).
    split; [reflexivity |]. split; [reflexivity |]. split.
    + intros Hnd. rewrite fmap_app. cbn. apply next_rowid_fresh, Hnd.
    + right. eexists. split; [reflexivity |]. split; [reflexivity |].
      intros old Hold. cbn.
      apply (next_rowid_above (Db.travel_plans_seq (db w))).
      apply list_elem_of_fmap. eauto.
Qed.

End Outcomes.

(** ** From a registration to a protected route *)

Section Journey.
Context {B : Bcrypt} {J : Jwt.Jws}.
Variable cfg : config.

(** A complete request with [req.user] set creates a ride for that
    user. *)
Lemma create_ride_complete (req : request) (w : world) (u : Jwt.claims)
    (o de dt se : string) :
  user req = Some u →
  body req !! "origin" = Some o → o ≠ "" →
  body req !! "destination" = Some de → de ≠ "" →
  body req !! "departure_time" = Some dt → dt ≠ "" →
  body req !! "available_seats" = Some se → se ≠ "" →
  let row :=
    {| Ride.id := Db.next_rowid (Db.carpool_rides_seq (db w))
                    (Ride.id <$> Db.carpool_rides (db w));
       Ride.user_id := Jwt.userId u; Ride.origin := o;
       Ride.destination := de; Ride.departure_time := dt;
       Ride.available_seats := se;
       Ride.price_per_seat := body req !! "price_per_seat";
       Ride.description := body req !! "description" |} in
  create_ride req w
  = (Reply 201
       (Js.JObj [("id", Js.JNum (Ride.id row));
                 ("message", Js.JStr "Ride created successfully")]),
     {| db := {| Db.users := Db.users (db w);
                 Db.users_seq := Db.users_seq (db w);
                 Db.carpool_rides := Db.carpool_rides (db w) ++ [row];
                 Db.carpool_rides_seq := Ride.id row;
                 Db.travel_plans := Db.travel_plans (db w);
                 Db.travel_plans_seq := Db.travel_plans_seq (db w) |};
        trace := trace w ++ [Insert_ride (Jwt.userId u)] |}).
Proof.
  intros Hu Ho Hone Hde Hdene Hdt Hdtne Hse Hsene row. subst row.
  run_handler. rewrite Hu, Ho, Hde, Hdt, Hse.
  rewrite !truthy_nonempty by assumption. cbn.
  unfold Db.insert_ride. reflexivity.
Qed.

(** X5: the token of a successful registration opens the protected
    routes for the user just created.  If the registration was answered
    201 with [token] and the id [lastID], then until 86400 seconds later a
    complete request to create a ride that carries ['Bearer ' + token] is
    answered 201, and the ride it stores has [lastID] as its [user_id],
    the id of a row of [users] with the registered email. *)
Theorem registered_token_creates_owned_ride {JL : Jwt.JwsLaws J}
    (now1 now2 : Z) (salt token : string) (reg post : request)
    (w w1 : world) (lastID : Z) (view : list (string * Js.json))
    (o de dt se : string) :
  post_api_register cfg now1 salt reg w
  = (Reply 201
       (Js.JObj [("token", Js.JStr token);
                 ("user", Js.JObj (("id", Js.JNum lastID) :: view))]), w1) →
  Js.includes " " token = false →
  token ≠ "" →
  headers post !! "authorization" = Some ("Bearer " +:+ token) →
  now2 < now1 + 86400 →
  body post !! "origin" = Some o → o ≠ "" →
  body post !! "destination" = Some de → de ≠ "" →
  body post !! "departure_time" = Some dt → dt ≠ "" →
  body post !! "available_seats" = Some se → se ≠ "" →
  ∃ (row : Ride.row) (w2 : world) (owner : User.row),
    post_api_carpool_rides cfg now2 post w1
    = (Reply 201
         (Js.JObj [("id", Js.JNum (Ride.id row));
                   ("message", Js.JStr "Ride created successfully")]), w2)
    ∧ Db.carpool_rides (db w2) = Db.carpool_rides (db w1) ++ [row]
    ∧ Ride.user_id row = lastID
    ∧ Ride.origin row = o
    ∧ owner ∈ Db.users (db w2)
    ∧ User.id owner = lastID
    ∧ Some (User.email owner) = body reg !! "email".
Proof.
  intros Hreg Hnospace Hne Hh Hlt Ho Hone Hde Hdene Hdt Hdtne Hse Hsene.
  assert (Hsigned :
    Jwt.sign lastID (body reg !! "email") (JWT_SECRET cfg) "24h" now1
    = Some token
    ∧ ∃ owner, owner ∈ Db.users (db w1) ∧ User.id owner = lastID
               ∧ Some (User.email owner) = body reg !! "email").
  { revert Hreg. run_handler.
    destruct (negb _ || negb _ || negb _); cbn; [intros [=] |].
    destruct (Db.select_user_by_email _ _); cbn; [intros [=] |].
    unfold Db.insert_user.
    destruct (body reg !! "email") as [e |]; [| cbn; intros [=]].
    destruct (body reg !! "name") as [n |]; [| cbn; intros [=]].
    destruct (existsb _ _); cbn; [intros [=] |].
    destruct (Jwt.sign _ _ _ _ _) as [tok |] eqn:Hsign; cbn; [| intros [=]].
    intros [= Htok Hid _ Hw]. subst tok lastID w1. split; [exact Hsign |].
    eexists. split.
    - cbn. apply elem_of_app. right. apply list_elem_of_singleton.
      reflexivity.
    - split; reflexivity. }
  destruct Hsigned as [Hsign (owner & Hin & Hid & Hmail)].
  pose proof (verify_signed _ _ _ _ _ now2 Hsign Hlt) as Hverify.
  pose proof (authenticate_with_token cfg now2 post _ token Hh
                (split_scheme_token "Bearer" token eq_refl Hnospace) Hne)
    as Hauth.
  rewrite Hverify in Hauth.
  unfold post_api_carpool_rides, guarded. rewrite Hauth.
  erewrite create_ride_complete; try eassumption; try reflexivity.
  eexists _, _, owner. split; [reflexivity |]. cbn.
  split; [reflexivity |]. split; [reflexivity |]. split; [reflexivity |].
  auto.
Qed.

(** X6: how long a token lives.  A token signed at clock [now] passes the
    middleware at every clock before [now + 86400] (also at clocks before
    [now]: [iat] is not checked) and is answered 403 from [now + 86400]
    on. *)
Theorem issued_token_lifetime {JL : Jwt.JwsLaws J} (uid : Z)
    (mail : Js.value) (now clock : Z) (token h : string) (req : request) :
  Jwt.sign uid mail (JWT_SECRET cfg) "24h" now = Some token →
  headers req !! "authorization" = Some h →
  Js.split " " h !! 1%nat = Some token →
  token ≠ "" →
  (clock < now + 86400 →
   authenticateToken cfg clock req
   = inr {| headers := headers req; body := body req;
            user := Some {| Jwt.userId := uid; Jwt.email := mail;
                            Jwt.iat := now;
                            Jwt.exp := Some (now + 86400) |} |})
  ∧
  (now + 86400 <= clock →
   authenticateToken cfg clock req
   = inl (Reply 403 (message "Invalid token"))).
Proof.
  intros Hsign Hh Hsplit Hne.
  rewrite (authenticate_with_token cfg clock req h token Hh Hsplit Hne).
  split.
  - intros Hlt. rewrite (verify_signed _ _ _ _ _ clock Hsign Hlt).
    reflexivity.
  - intros Hle. rewrite sign_24h in Hsign. injection Hsign as <-.
    edestruct (verify_expired) as [err ->];
      [apply Jwt.jws_parse_compact | reflexivity | exact Hle |].
    reflexivity.
Qed.

End Journey.

(** ** The listings *)

Lemma string_leb_trans (a b c : string) :
  String.leb a b = true → String.leb b c = true → String.leb a c = true.
Proof.
  unfold String.leb. revert b c.
  induction a as [| x a IH]; intros [| y b] [| z c]; cbn; try easy.
  unfold Ascii.compare.
  destruct (N.compare_spec (N_of_ascii x) (N_of_ascii y)) as [Hxy | Hxy | Hxy],
    (N.compare_spec (N_of_ascii y) (N_of_ascii z)) as [Hyz | Hyz | Hyz],
    (N.compare_spec (N_of_ascii x) (N_of_ascii z)) as [Hxz | Hxz | Hxz];
    try easy; try lia.
  apply IH.
Qed.

Lemma filter_all {A : Type} (P : A → Prop) `{!∀ x, Decision (P x)}
    (l : list A) :
  (∀ x, P x) → filter P l = l.
Proof.
  intros HP. induction l as [| a l IH]; [reflexivity |].
  rewrite filter_cons_True by apply HP. rewrite IH. reflexivity.
Qed.

#[global] Instance by_name_total : Total Site.by_name.
Proof. intros a b. apply String.leb_total. Qed.

#[global] Instance by_name_trans : Transitive Site.by_name.
Proof. intros a b c. apply string_leb_trans. Qed.

(** The statements the three handlers can build are the ones the tables
    answer. *)
Lemma sites_statement_plain :
  Sites.statement ("SELECT * FROM historical_sites" +:+ " ORDER BY name ASC")
  = Some [].
Proof. reflexivity. Qed.

Lemma sites_statement_located :
  Sites.statement
    (("SELECT * FROM historical_sites" +:+ " WHERE location LIKE ?")
     +:+ " ORDER BY name ASC")
  = Some [Site.location].
Proof. reflexivity. Qed.

Lemma rides_statement_cases (o d : bool) :
  Listed.rides_statement
    (((if d then
         (if o then Listed.select_rides +:+ " AND r.origin LIKE ?"
          else Listed.select_rides) +:+ " AND r.destination LIKE ?"
       else
         (if o then Listed.select_rides +:+ " AND r.origin LIKE ?"
          else Listed.select_rides)))
     +:+ " ORDER BY r.departure_time ASC")
  = Some ((if o then [Listed.origin] else [])
          ++ (if d then [Listed.destination] else [])).
Proof. destruct o, d; vm_compute; reflexivity. Qed.

Lemma plans_statement_cases (d : bool) :
  Listed.plans_statement
    ((if d then Listed.select_plans +:+ " AND t.destination LIKE ?"
      else Listed.select_plans)
     +:+ " ORDER BY t.start_date ASC")
  = Some (if d then [Listed.plan_destination] else []).
Proof. destruct d; vm_compute; reflexivity. Qed.

(** X7: the three listings are parameterised statements.  The text of the
    statement depends only on which filters are present, never on what
    they hold, and it has as many [?] marks as there are bound values. *)
Theorem listing_statements_parameterised (q q' : gmap string string) :
  (Sql.marks (fst (carpool_rides_query q))
   = List.length (snd (carpool_rides_query q))
   ∧ Sql.marks (fst (travel_plans_query q))
     = List.length (snd (travel_plans_query q))
   ∧ Sql.marks (fst (historical_sites_query q))
     = List.length (snd (historical_sites_query q)))
  ∧
  (Js.truthy (q !! "origin") = Js.truthy (q' !! "origin") →
   Js.truthy (q !! "destination") = Js.truthy (q' !! "destination") →
   fst (carpool_rides_query q) = fst (carpool_rides_query q'))
  ∧
  (Js.truthy (q !! "destination") = Js.truthy (q' !! "destination") →
   fst (travel_plans_query q) = fst (travel_plans_query q'))
  ∧
  (Js.truthy (q !! "location") = Js.truthy (q' !! "location") →
   fst (historical_sites_query q) = fst (historical_sites_query q')).
Proof.
  unfold carpool_rides_query, travel_plans_query, historical_sites_query.
  split; [split; [| split] |].
  - destruct (Js.truthy (q !! "origin")),
      (Js.truthy (q !! "destination")); reflexivity.
  - destruct (Js.truthy (q !! "destination")); reflexivity.
  - destruct (Js.truthy (q !! "location")); reflexivity.
  - split; [| split].
    + intros <- <-.
      destruct (Js.truthy (q !! "origin")),
        (Js.truthy (q !! "destination")); reflexivity.
    + intros <-. destruct (Js.truthy (q !! "destination")); reflexivity.
    + intros <-. destruct (Js.truthy (q !! "location")); reflexivity.
Qed.

Section ListingFacts.
Context {S : Sqlite}.

(** X8: the listing of the historical sites never answers 500.  It sends
    the rows of the table, each once, in the order of their names; with a
    [location] in the query, only the rows whose location is [LIKE] that
    text between two [%]. *)
Theorem historical_sites_listing (s : Sites.t) (q : gmap string string) :
  ∃ rows : list Site.row,
    get_api_historical_sites s q = Sql.Rows (Site.json <$> rows)
    ∧ StronglySorted Site.by_name rows
    ∧ (Js.truthy (q !! "location") = false → rows ≡ₚ Sites.rows s)
    ∧ (Js.truthy (q !! "location") = true →
       rows ≡ₚ filter
                 (λ r, sqlite_like ("%" +:+ Js.str (q !! "location") +:+ "%")
                         (Site.location r) = true)
                 (Sites.rows s)).
Proof.
  unfold get_api_historical_sites, historical_sites_query, Sites.all.
  destruct (Js.truthy (q !! "location")) eqn:Hloc.
  - rewrite sites_statement_located. cbn [List.length Nat.ltb Nat.leb app].
    eexists. split; [reflexivity |].
    split; [apply StronglySorted_merge_sort; apply _ |].
    split; [discriminate |]. intros _.
    rewrite merge_sort_Permutation.
    erewrite list_filter_iff; [reflexivity |].
    intros r. cbn. rewrite andb_true_r. reflexivity.
  - rewrite sites_statement_plain. cbn [List.length Nat.ltb Nat.leb].
    eexists. split; [reflexivity |].
    split; [apply StronglySorted_merge_sort; apply _ |].
    split; [| discriminate]. intros _.
    rewrite merge_sort_Permutation.
    rewrite filter_all; [reflexivity |].
    intros r. reflexivity.
Qed.

End ListingFacts.

Lemma sites_insert_rows (stamp : string)
    (v : string * string * string * string * string * string * string)
    (s : Sites.t) :
  ∃ row, Sites.rows (Sites.insert stamp v s) = Sites.rows s ++ [row]
         ∧ Site.name row = v.1.1.1.1.1.1
         ∧ Site.id row
           = Db.next_rowid (Sites.seq s) (Site.id <$> Sites.rows s).
Proof.
  destruct v as [[[[[[nm loc] descr] period] facts] visit] image].
  eexists. split; [reflexivity |]. split; reflexivity.
Qed.

Lemma sites_insert_ids (stamp : string)
    (v : string * string * string * string * string * string * string)
    (s : Sites.t) :
  NoDup (Site.id <$> Sites.rows s) →
  NoDup (Site.id <$> Sites.rows (Sites.insert stamp v s)).
Proof.
  intros Hnd. destruct (sites_insert_rows stamp v s) as (row & -> & _ & Hid).
  rewrite fmap_app. cbn. rewrite Hid. apply next_rowid_fresh, Hnd.
Qed.

Lemma sites_foldl_rows (stamp : string)
    (vs : list (string * string * string * string * string * string * string))
    (s : Sites.t) :
  ∃ added,
    Sites.rows (foldl (λ acc v, Sites.insert stamp v acc) s vs)
    = Sites.rows s ++ added
    ∧ Site.name <$> added = (λ v, v.1.1.1.1.1.1) <$> vs.
Proof.
  revert s. induction vs as [| v vs IH]; intros s; cbn [foldl].
  - exists []. rewrite app_nil_r. split; reflexivity.
  - destruct (IH (Sites.insert stamp v s)) as (added & -> & Hnames).
    destruct (sites_insert_rows stamp v s) as (row & -> & Hname & _).
    exists (row :: added). rewrite <- app_assoc. split; [reflexivity |].
    cbn. rewrite Hname, Hnames. reflexivity.
Qed.

Lemma sites_seed_rows (stamp : string) (s : Sites.t) :
  ∃ added,
    Sites.rows (Sites.seed stamp s) = Sites.rows s ++ added
    ∧ Site.name <$> added
      = ["Ancient Town Square"; "Old Mill Museum"; "Heritage Library";
         "Railway Station Monument"; "Founders Memorial Park"].
Proof. exact (sites_foldl_rows stamp Sites.samples s). Qed.

(** X9: every start of the server adds the five sample sites again.  The
    [INSERT OR IGNORE] of [db.serialize] meets no constraint, so the rows
    already there are kept and five rows with the sample names are
    appended, with fresh ids; after [n] starts on a new file the table has
    [5 * n] rows. *)
Theorem seeding_adds_the_samples_again (stamp : string) (s : Sites.t) :
  (∃ added,
     Sites.rows (Sites.seed stamp s) = Sites.rows s ++ added
     ∧ Site.name <$> added
       = ["Ancient Town Square"; "Old Mill Museum"; "Heritage Library";
          "Railway Station Monument"; "Founders Memorial Park"])
  ∧ (NoDup (Site.id <$> Sites.rows s) →
     NoDup (Site.id <$> Sites.rows (Sites.seed stamp s)))
  ∧ ∀ n : nat,
      List.length (Sites.rows (Nat.iter n (Sites.seed stamp) Sites.empty))
      = (5 * n)%nat.
Proof.
  split; [apply sites_seed_rows |]. split.
  - unfold Sites.seed, Sites.samples. cbn [foldl]. intros Hnd.
    repeat apply sites_insert_ids. exact Hnd.
  - induction n as [| n IH]; [reflexivity |].
    rewrite Nat.iter_succ.
    destruct (sites_seed_rows stamp (Nat.iter n (Sites.seed stamp) Sites.empty))
      as (added & -> & Hnames).
    rewrite length_app, IH.
    apply (f_equal List.length) in Hnames. rewrite length_fmap in Hnames.
    rewrite Hnames. cbn [List.length]. lia.
Qed.

Section JoinedListings.
Context {S : Sqlite}.

Lemma elem_of_join_rides (d : Db.t) (x : Listed.ride) :
  x ∈ Listed.join_rides d
  ↔ ∃ r u, r ∈ Db.carpool_rides d ∧ u ∈ Db.users d
           ∧ User.id u = Ride.user_id r
           ∧ x = {| Listed.ride_row := r; Listed.driver_name := User.name u;
                    Listed.driver_phone := User.phone u |}.
Proof.
  unfold Listed.join_rides. rewrite list_elem_of_bind. split.
  - intros (r & Hx & Hr). apply list_elem_of_bind in Hx as (u & Hx & Hu).
    apply list_elem_of_filter in Hu as [Hid Hu].
    apply list_elem_of_singleton in Hx. eauto 8.
  - intros (r & u & Hr & Hu & Hid & ->). exists r. split; [| exact Hr].
    apply list_elem_of_bind. exists u. split.
    + apply list_elem_of_singleton. reflexivity.
    + apply list_elem_of_filter. auto.
Qed.

Lemma elem_of_join_plans (d : Db.t) (x : Listed.plan) :
  x ∈ Listed.join_plans d
  ↔ ∃ t u, t ∈ Db.travel_plans d ∧ u ∈ Db.users d
           ∧ User.id u = Plan.user_id t
           ∧ x = {| Listed.plan_row := t;
                    Listed.traveler_name := User.name u;
                    Listed.traveler_phone := User.phone u |}.
Proof.
  unfold Listed.join_plans. rewrite list_elem_of_bind. split.
  - intros (t & Hx & Ht). apply list_elem_of_bind in Hx as (u & Hx & Hu).
    apply list_elem_of_filter in Hu as [Hid Hu].
    apply list_elem_of_singleton in Hx. eauto 8.
  - intros (t & u & Ht & Hu & Hid & ->). exists t. split; [| exact Ht].
    apply list_elem_of_bind. exists u. split.
    + apply list_elem_of_singleton. reflexivity.
    + apply list_elem_of_filter. auto.
Qed.

(** What the filters of a query ask of a listed ride, and of a listed
    plan. *)
Local Abbreviation ride_wanted q x :=
  ((if Js.truthy (q !! "origin")
    then sqlite_like ("%" +:+ Js.str (q !! "origin") +:+ "%")
           (Listed.origin x)
    else true)
   && (if Js.truthy (q !! "destination")
       then sqlite_like ("%" +:+ Js.str (q !! "destination") +:+ "%")
              (Listed.destination x)
       else true)).

Local Abbreviation plan_wanted q x :=
  (if Js.truthy (q !! "destination")
   then sqlite_like ("%" +:+ Js.str (q !! "destination") +:+ "%")
          (Listed.plan_destination x)
   else true).

(** The listing of the rides is the join, filtered and reordered. *)
Lemma rides_listing_perm (d : Db.t) (q : gmap string string) :
  ∃ rows,
    get_api_carpool_rides d q = Sql.Rows rows
    ∧ rows = merge_sort Listed.by_departure
               (filter (λ x, ride_wanted q x = true) (Listed.join_rides d)).
Proof.
  unfold get_api_carpool_rides, carpool_rides_query, Listed.all_rides.
  destruct (Js.truthy (q !! "origin")) eqn:Ho,
    (Js.truthy (q !! "destination")) eqn:Hd.
  - rewrite (rides_statement_cases true true). cbn [List.length Nat.ltb
      Nat.leb app].
    eexists. split; [reflexivity |]. apply (f_equal (merge_sort _)).
    apply list_filter_iff. intros x. cbn. rewrite ?andb_true_r. reflexivity.
  - rewrite (rides_statement_cases true false). cbn [List.length Nat.ltb
      Nat.leb app].
    eexists. split; [reflexivity |]. apply (f_equal (merge_sort _)).
    apply list_filter_iff. intros x. cbn. rewrite ?andb_true_r. reflexivity.
  - rewrite (rides_statement_cases false true). cbn [List.length Nat.ltb
      Nat.leb app].
    eexists. split; [reflexivity |]. apply (f_equal (merge_sort _)).
    apply list_filter_iff. intros x. cbn. rewrite ?andb_true_r. reflexivity.
  - rewrite (rides_statement_cases false false). cbn [List.length Nat.ltb
      Nat.leb app].
    eexists. split; [reflexivity |]. apply (f_equal (merge_sort _)).
    apply list_filter_iff. intros x. cbn. rewrite ?andb_true_r. reflexivity.
Qed.

Lemma plans_listing_perm (d : Db.t) (q : gmap string string) :
  ∃ rows,
    get_api_travel_plans d q = Sql.Rows rows
    ∧ rows = merge_sort Listed.by_start
               (filter (λ x, plan_wanted q x = true) (Listed.join_plans d)).
Proof.
  unfold get_api_travel_plans, travel_plans_query, Listed.all_plans.
  destruct (Js.truthy (q !! "destination")) eqn:Hd.
  - rewrite (plans_statement_cases true). cbn [List.length Nat.ltb Nat.leb].
    eexists. split; [reflexivity |]. apply (f_equal (merge_sort _)).
    apply list_filter_iff. intros x. cbn. rewrite ?andb_true_r. reflexivity.
  - rewrite (plans_statement_cases false). cbn [List.length Nat.ltb Nat.leb].
    eexists. split; [reflexivity |]. apply (f_equal (merge_sort _)).
    apply list_filter_iff. intros x. cbn. rewrite ?andb_true_r. reflexivity.
Qed.

(** X10: what the listing of the rides shows.  It never answers 500.  A
    row is listed exactly when it pairs a ride of the table with a user
    whose id is the ride's [user_id], carrying that user's name and phone,
    and the ride passes the [LIKE] filters of the query; a ride whose
    [user_id] is no user's id is not listed.  The rows come in the order
    of their departure times whenever the database's order on these
    values is total. *)
Theorem rides_listing_shows_owned_rides (d : Db.t) (q : gmap string string) :
  ∃ rows,
    get_api_carpool_rides d q = Sql.Rows rows
    ∧ (∀ x, x ∈ rows
            ↔ (∃ r u, r ∈ Db.carpool_rides d ∧ u ∈ Db.users d
                      ∧ User.id u = Ride.user_id r
                      ∧ x = {| Listed.ride_row := r;
                               Listed.driver_name := User.name u;
                               Listed.driver_phone := User.phone u |})
              ∧ ride_wanted q x = true)
    ∧ ((∀ a b, sqlite_numeric_leb a b = true ∨ sqlite_numeric_leb b a = true)
       → Sorted Listed.by_departure rows).
Proof.
  destruct (rides_listing_perm d q) as (rows & Hrows & ->).
  eexists. split; [exact Hrows |]. split.
  - intros x. rewrite merge_sort_Permutation, list_elem_of_filter.
    rewrite elem_of_join_rides. tauto.
  - intros Htotal. apply Sorted_merge_sort. intros a b. apply Htotal.
Qed.

(** X11: the same for the travel plans, with the traveler's name and
    phone and the order of the start dates. *)
Theorem plans_listing_shows_owned_plans (d : Db.t) (q : gmap string string) :
  ∃ rows,
    get_api_travel_plans d q = Sql.Rows rows
    ∧ (∀ x, x ∈ rows
            ↔ (∃ t u, t ∈ Db.travel_plans d ∧ u ∈ Db.users d
                      ∧ User.id u = Plan.user_id t
                      ∧ x = {| Listed.plan_row := t;
                               Listed.traveler_name := User.name u;
                               Listed.traveler_phone := User.phone u |})
              ∧ plan_wanted q x = true)
    ∧ ((∀ a b, sqlite_numeric_leb a b = true ∨ sqlite_numeric_leb b a = true)
       → Sorted Listed.by_start rows).
Proof.
  destruct (plans_listing_perm d q) as (rows & Hrows & ->).
  eexists. split; [exact Hrows |]. split.
  - intros x. rewrite merge_sort_Permutation, list_elem_of_filter.
    rewrite elem_of_join_plans. tauto.
  - intros Htotal. apply Sorted_merge_sort. intros a b. apply Htotal.
Qed.


End JoinedListings.

(** ** Edges of the middleware and of the routes behind it *)

Section Edges.
Context {B : Bcrypt} {J : Jwt.Jws}.
Variable cfg : config.

(** X13: only the text between the first and the second space of the
    header counts.  What follows a second space is ignored, and a second
    space right after the scheme makes the token empty, so that the
    request is answered 401 whatever follows. *)
Theorem header_token_is_second_segment (now : Z) (req : request)
    (scheme token rest : string) :
  Js.includes " " scheme = false →
  (Js.includes " " token = false →
   token ≠ "" →
   headers req !! "authorization"
   = Some (scheme +:+ " " +:+ token +:+ " " +:+ rest) →
   authenticateToken cfg now req
   = match Jwt.verify token (JWT_SECRET cfg) now with
     | inl _ => inl (Reply 403 (message "Invalid token"))
     | inr decoded =>
         inr {| headers := headers req; body := body req;
                user := Some decoded |}
     end)
  ∧
  (headers req !! "authorization" = Some (scheme +:+ "  " +:+ rest) →
   authenticateToken cfg now req
   = inl (Reply 401 (message "Access token required"))).
Proof.
  intros Hscheme. split.
  - intros Htoken Hne Hh.
    apply (authenticate_with_token cfg now req _ token Hh); [| exact Hne].
    rewrite (split_word _ _ Hscheme), (split_word _ _ Htoken).
    reflexivity.
  - intros Hh. apply authenticate_without_token.
    intros h tok Hh' Hsplit. rewrite Hh in Hh'. injection Hh' as <-.
    change (scheme +:+ "  " +:+ rest)
      with (scheme +:+ " " +:+ (String " " rest)) in Hsplit.
    rewrite (split_word _ _ Hscheme) in Hsplit.
    cbn [Js.split] in Hsplit. change (Ascii.eqb " " " ") with true in Hsplit.
    cbn in Hsplit. congruence.
Qed.


End Edges.

(** ** Concrete runs on the stand-ins *)

Import Demo.
Import Scenario.

(** C1, as the specification states it, fails: with Alice registered
    under another password, a registration with her email is answered
    ['User already exists'], and the login that follows with the same email
    and password is answered ['Invalid credentials']. *)
Lemma taken_email_register_then_login_fails :
  let again :=
    request_of [] [("email", "alice@example.com"); ("password", "other");
                   ("name", "Alice")] in
  let login :=
    request_of [] [("email", "alice@example.com"); ("password", "other")] in
  Js.truthy (body again !! "email") = true ∧
  Js.truthy (body again !! "password") = true ∧
  Js.truthy (body again !! "name") = true ∧
  fst (post_api_register cfg 1000 "salt" again registered)
  = Reply 400 (message "User already exists") ∧
  fst (post_api_login cfg 1001 login
         (snd (post_api_register cfg 1000 "salt" again registered)))
  = Reply 400 (message "Invalid credentials").
Proof.
  intros again login. repeat split; vm_compute; reflexivity.
Qed.

Lemma register_then_login_witness :
  ∃ (lastID : Z) (token1 token2 : string) (w1 w2 : world),
    post_api_register cfg 1000 "salt" register_alice fresh
    = (Reply 201
         (Js.JObj
            [("token", Js.JStr token1);
             ("user",
              Js.JObj ([("id", Js.JNum lastID);
                        ("email", Js.JStr "alice@example.com");
                        ("name", Js.JStr "Alice")]
                       ++ Js.prop "phone" (body register_alice !! "phone")))]),
       w1) ∧
    post_api_login cfg 2000 login_alice w1
    = (Reply 200
         (Js.JObj
            [("token", Js.JStr token2);
             ("user",
              Js.JObj [("id", Js.JNum lastID);
                       ("email", Js.JStr "alice@example.com");
                       ("name", Js.JStr "Alice");
                       ("phone",
                        Js.nullable (body register_alice !! "phone"))])]),
       w2) ∧
    Jwt.verify token2 (JWT_SECRET cfg) 2000
    = inr {| Jwt.userId := lastID; Jwt.email := Some "alice@example.com";
             Jwt.iat := 2000; Jwt.exp := Some (2000 + 86400) |}.
Proof.
  apply (register_then_login cfg 1000 2000 2000 "salt"
           "alice@example.com" "pw12345" "Alice"
           register_alice login_alice fresh);
    try discriminate; try reflexivity. lia.
Defined.

Lemma user_view_hides_password_witness :
  let view :=
    Js.JObj [("id", Js.JNum 1); ("email", Js.JStr "alice@example.com");
             ("name", Js.JStr "Alice"); ("phone", Js.JNull)] in
  Js.get "user"
    (reply_json (fst (post_api_login cfg 2000 login_alice registered)))
  = Some view ∧
  Js.keys view ⊆ ["id"; "email"; "name"; "phone"] ∧
  "password" ∉ Js.keys view.
Proof.
  intros view. split; [reflexivity |].
  apply (user_view_hides_password cfg 2000 "salt" login_alice registered
           200
           (reply_json (fst (post_api_login cfg 2000 login_alice registered)))
           view).
  - right. reflexivity.
  - reflexivity.
Defined.

(** C3, as the specification states it, fails: a login with an unknown
    email and no password is answered with the validation message, a login
    with a known email and a wrong password with ['Invalid credentials']. *)
Lemma unknown_email_without_password_is_validation_error :
  let unknown := request_of [] [("email", "ghost@example.com")] in
  Db.select_user_by_email (db registered) (body unknown !! "email") = None ∧
  Db.select_user_by_email (db registered) (body login_alice_wrong !! "email")
  = Some alice ∧
  bcrypt_compare "wrongpw" (User.password alice) = false ∧
  fst (post_api_login cfg 1000 unknown registered)
  = Reply 400 (message "Email and password are required") ∧
  fst (post_api_login cfg 1000 login_alice_wrong registered)
  = Reply 400 (message "Invalid credentials") ∧
  fst (post_api_login cfg 1000 unknown registered)
  ≠ fst (post_api_login cfg 1000 login_alice_wrong registered).
Proof.
  intros unknown.
  split; [reflexivity |]. split; [reflexivity |]. split; [reflexivity |].
  split; [reflexivity |]. split; [reflexivity |].
  intros Heq. vm_compute in Heq. discriminate Heq.
Qed.

Lemma invalid_credentials_same_reply_witness :
  fst (post_api_login cfg 1000 login_ghost registered)
  = Reply 400 (message "Invalid credentials") ∧
  fst (post_api_login cfg 1001 login_alice_wrong registered)
  = Reply 400 (message "Invalid credentials") ∧
  db (snd (post_api_login cfg 1000 login_ghost registered)) = db registered ∧
  db (snd (post_api_login cfg 1001 login_alice_wrong registered))
  = db registered.
Proof.
  apply (invalid_credentials_same_reply cfg 1000 1001 login_ghost
           login_alice_wrong registered alice); reflexivity.
Defined.

(** C4, as the specification states it, fails: a registration with a
    registered email and no [name] is answered with the validation
    message, not with the duplicate one. *)
Lemma duplicate_email_without_name_is_validation_error :
  let req :=
    request_of [] [("email", "alice@example.com"); ("password", "pw12345")] in
  Db.select_user_by_email (db registered) (body req !! "email") = Some alice ∧
  post_api_register cfg 1000 "salt" req registered
  = (Reply 400 (message "Email, password, and name are required"),
     registered) ∧
  Reply 400 (message "Email, password, and name are required")
  ≠ Reply 400 (message "User already exists").
Proof.
  intros req. split; [reflexivity |]. split; [reflexivity |]. discriminate.
Qed.

Lemma duplicate_email_rejected_witness :
  post_api_register cfg 1000 "salt" register_alice registered
  = (Reply 400 (message "User already exists"),
     {| db := db registered;
        trace := trace registered
                 ++ [Select_user (body register_alice !! "email")] |}).
Proof.
  apply (duplicate_email_rejected cfg 1000 "salt" register_alice registered
           alice); reflexivity.
Defined.

Lemma missing_field_rejected_untouched_witness :
  let no_name :=
    request_of [] [("email", "bob@example.com"); ("password", "hunter2")] in
  let no_password := request_of [] [("email", "alice@example.com")] in
  post_api_register cfg 1000 "salt" no_name registered
  = (Reply 400 (message "Email, password, and name are required"),
     registered) ∧
  post_api_login cfg 1000 no_password registered
  = (Reply 400 (message "Email and password are required"), registered).
Proof.
  intros no_name no_password. split.
  - apply (proj1 (missing_field_rejected_untouched cfg 1000 "salt" no_name
                    registered)).
    right. right. reflexivity.
  - apply (proj2 (missing_field_rejected_untouched cfg 1000 "salt"
                    no_password registered)).
    right. reflexivity.
Defined.

Lemma authorize_then_stamp_witness :
  let anonymous := request_of [] ride_fields in
  let garbage := request_of [("authorization", "Bearer garbage")] ride_fields in
  let signed :=
    request_of [("authorization", "Bearer " +:+ alice_token)] ride_fields in
  let planner :=
    request_of [("authorization", "Bearer " +:+ alice_token)] plan_fields in
  post_api_carpool_rides cfg 3000 anonymous registered
  = (Reply 401 (message "Access token required"), registered) ∧
  post_api_carpool_rides cfg 3000 garbage registered
  = (Reply 403 (message "Invalid token"), registered) ∧
  (Ride.user_id
     <$> Db.carpool_rides
           (db (snd (post_api_carpool_rides cfg 3000 signed registered))))
  = [1] ∧
  (Plan.user_id
     <$> Db.travel_plans
           (db (snd (post_api_travel_plans cfg 3000 planner registered))))
  = [1].
Proof.
  intros anonymous garbage signed planner.
  split; [| split; [| split]].
  - apply (proj1 (authorize_then_stamp cfg 3000 anonymous registered)).
    intros h token Hh. discriminate Hh.
  - apply (proj1 (proj2 (authorize_then_stamp cfg 3000 garbage registered))
             "Bearer garbage" "garbage"
             (Jwt.JsonWebTokenError "jwt malformed"));
      try reflexivity. discriminate.
  - assert (Hne : alice_token ≠ "") by discriminate.
    pose proof (proj2 (proj2 (authorize_then_stamp cfg 3000 signed registered))
                  ("Bearer " +:+ alice_token) alice_token
                  {| Jwt.userId := 1; Jwt.email := Some "alice@example.com";
                     Jwt.iat := 2000; Jwt.exp := Some 88400 |}
                  eq_refl eq_refl Hne eq_refl) as (_ & Hride & _).
    destruct (post_api_carpool_rides cfg 3000 signed registered) as [r w'].
    destruct Hride as [(Hno & _) | (_ & row & _ & Hrows & Hid)];
      [discriminate Hno |].
    cbn [snd]. rewrite Hrows. cbn. rewrite Hid. reflexivity.
  - assert (Hne : alice_token ≠ "") by discriminate.
    pose proof (proj2 (proj2 (authorize_then_stamp cfg 3000 planner registered))
                  ("Bearer " +:+ alice_token) alice_token
                  {| Jwt.userId := 1; Jwt.email := Some "alice@example.com";
                     Jwt.iat := 2000; Jwt.exp := Some 88400 |}
                  eq_refl eq_refl Hne eq_refl) as (_ & _ & Hplan).
    destruct (post_api_travel_plans cfg 3000 planner registered) as [r w'].
    destruct Hplan as [(Hno & _) | (_ & row & _ & Hrows & Hid)];
      [discriminate Hno |].
    cbn [snd]. rewrite Hrows. cbn. rewrite Hid. reflexivity.
Defined.

Lemma invalid_token_one_reply_witness :
  let garbage := request_of [("authorization", "Bearer garbage")] [] in
  let forged :=
    request_of [("authorization", "Bearer " +:+ forged_token)] [] in
  let signed :=
    request_of [("authorization", "Bearer " +:+ alice_token)] [] in
  authenticateToken cfg 3000 garbage
  = inl (Reply 403 (message "Invalid token")) ∧
  authenticateToken cfg 3000 forged
  = inl (Reply 403 (message "Invalid token")) ∧
  authenticateToken cfg 90000 signed
  = inl (Reply 403 (message "Invalid token")).
Proof.
  intros garbage forged signed.
  assert (Hgarbage : "garbage" ≠ "") by discriminate.
  assert (Hforged : forged_token ≠ "") by discriminate.
  assert (Hsigned : alice_token ≠ "") by discriminate.
  split; [| split].
  - destruct (invalid_token_one_reply cfg 3000 garbage "Bearer garbage"
                "garbage" eq_refl eq_refl Hgarbage) as [Hiff Hreply].
    apply Hreply, Hiff. left. reflexivity.
  - destruct (invalid_token_one_reply cfg 3000 forged
                ("Bearer " +:+ forged_token) forged_token
                eq_refl eq_refl Hforged) as [Hiff Hreply].
    apply Hreply, Hiff. right. left.
    eexists. split; [reflexivity |]. discriminate.
  - destruct (invalid_token_one_reply cfg 90000 signed
                ("Bearer " +:+ alice_token) alice_token
                eq_refl eq_refl Hsigned) as [Hiff Hreply].
    apply Hreply, Hiff. right. right.
    eexists _, _. split; [reflexivity |]. split; [reflexivity |].
    discriminate.
Defined.

Lemma issue_then_verify_witness :
  (∃ token,
     Jwt.sign 1 (Some "alice@example.com") (JWT_SECRET cfg) "24h" 2000
     = Some token ∧
     Jwt.verify token (JWT_SECRET cfg) 2000
     = inr {| Jwt.userId := 1; Jwt.email := Some "alice@example.com";
              Jwt.iat := 2000; Jwt.exp := Some (2000 + 24 * 60 * 60) |})
  ∧
  (∃ (token : string) (lastID : Z) (view : list (string * Js.json))
     (w1 : world),
     post_api_register cfg 2000 "salt" register_alice fresh
     = (Reply 201
          (Js.JObj [("token", Js.JStr token);
                    ("user", Js.JObj (("id", Js.JNum lastID) :: view))]),
        w1)
     ∧ Jwt.verify token (JWT_SECRET cfg) 2000
       = inr {| Jwt.userId := lastID;
                Jwt.email := body register_alice !! "email";
                Jwt.iat := 2000; Jwt.exp := Some (2000 + 24 * 60 * 60) |})
  ∧
  (∃ (token : string) (view : Js.json) (w1 : world),
     post_api_login cfg 2000 login_alice registered
     = (Reply 200 (Js.JObj [("token", Js.JStr token); ("user", view)]), w1)
     ∧ Jwt.verify token (JWT_SECRET cfg) 2000
       = inr {| Jwt.userId := 1; Jwt.email := Some "alice@example.com";
                Jwt.iat := 2000; Jwt.exp := Some (2000 + 24 * 60 * 60) |})
  ∧
  (∃ err, Jwt.verify alice_token (JWT_SECRET cfg) 90000 = inl err).
Proof.
  split; [| split; [| split]].
  - apply (issue_then_verify cfg 1 (Some "alice@example.com") 2000).
  - destruct (proj1 (proj2 (issue_then_verify cfg 1 None 2000))
                "salt" register_alice fresh)
      as (token & lastID & view & w1 & Hreply & Hverify & _);
      try reflexivity.
    exists token, lastID, view, w1. split; assumption.
  - destruct (proj1 (proj2 (proj2 (issue_then_verify cfg 1 None 2000)))
                login_alice registered alice)
      as (token & view & w1 & Hreply & Hverify & _);
      try reflexivity.
    exists token, view, w1. split; assumption.
  - apply (proj2 (proj2 (proj2 (issue_then_verify cfg 1 None 90000)))
             alice_token
             {| Jwt.payload :=
                  {| Jwt.userId := 1; Jwt.email := Some "alice@example.com";
                     Jwt.iat := 2000; Jwt.exp := Some 88400 |};
                Jwt.signature :=
                  Jwt.jws_sign "your-secret-key-here"
                    {| Jwt.userId := 1;
                       Jwt.email := Some "alice@example.com";
                       Jwt.iat := 2000; Jwt.exp := Some 88400 |} |}
             88400); reflexivity.
Defined.

Lemma scheme_not_checked_witness :
  let basic := request_of [("authorization", "Basic " +:+ alice_token)] [] in
  let bare := request_of [("authorization", "Bearer")] [] in
  authenticateToken cfg 3000 basic
  = inr {| headers := headers basic; body := body basic;
           user := Some {| Jwt.userId := 1;
                           Jwt.email := Some "alice@example.com";
                           Jwt.iat := 2000; Jwt.exp := Some 88400 |} |} ∧
  authenticateToken cfg 3000 bare
  = inl (Reply 401 (message "Access token required")).
Proof.
  intros basic bare. split.
  - apply (proj1 (proj2 (scheme_not_checked cfg 3000 basic)) alice_token);
      try reflexivity; [discriminate |].
    left. reflexivity.
  - apply (proj2 (proj2 (scheme_not_checked cfg 3000 bare)) "Bearer");
      reflexivity.
Defined.

(** ** Concrete runs of the further properties *)

Import DemoSql.
Import Roads.

Lemma register_keeps_users_unique_witness :
  let d' :=
    db (snd (post_api_register cfg 1000 "salt" (request_of [] bob_fields)
               registered)) in
  NoDup (User.email <$> Db.users d')
  ∧ NoDup (User.id <$> Db.users d')
  ∧ (Db.users d' = Db.users (db registered)
     ∨ ∃ row, Db.users d' = Db.users (db registered) ++ [row])
  ∧ Db.carpool_rides d' = Db.carpool_rides (db registered)
  ∧ Db.travel_plans d' = Db.travel_plans (db registered).
Proof.
  apply (register_keeps_users_unique cfg 1000 "salt"
           (request_of [] bob_fields) registered);
    cbn; apply NoDup_singleton.
Defined.

Lemma created_rows_get_fresh_ids_witness :
  NoDup (Ride.id <$>
           Db.carpool_rides
             (db (snd (create_ride (as_user alice_claims ride_fields)
                         on_store)))).
Proof.
  pose proof (proj1 (created_rows_get_fresh_ids
                       (as_user alice_claims ride_fields) on_store)) as H.
  destruct H as (_ & _ & Hids & _).
  assert (Hbefore : NoDup (Ride.id <$> Db.carpool_rides (db on_store))).
  { cbn. apply NoDup_cons. split; [| apply NoDup_singleton].
    intros Hin. apply list_elem_of_singleton in Hin. discriminate Hin. }
  exact (Hids Hbefore).
Defined.

Lemma registered_token_creates_owned_ride_witness :
  ∃ (row : Ride.row) (w2 : world) (owner : User.row),
    post_api_carpool_rides cfg 2000
      (request_of [("authorization", "Bearer " +:+ first_token)] ride_fields)
      (snd (post_api_register cfg 1000 "salt" register_alice fresh))
    = (Reply 201
         (Js.JObj [("id", Js.JNum (Ride.id row));
                   ("message", Js.JStr "Ride created successfully")]), w2)
    ∧ Db.carpool_rides (db w2)
      = Db.carpool_rides
          (db (snd (post_api_register cfg 1000 "salt" register_alice fresh)))
        ++ [row]
    ∧ Ride.user_id row = 1
    ∧ Ride.origin row = "Downtown"
    ∧ owner ∈ Db.users (db w2)
    ∧ User.id owner = 1
    ∧ Some (User.email owner) = body register_alice !! "email".
Proof.
  apply (registered_token_creates_owned_ride cfg 1000 2000 "salt"
           first_token register_alice
           (request_of [("authorization", "Bearer " +:+ first_token)]
              ride_fields)
           fresh
           (snd (post_api_register cfg 1000 "salt" register_alice fresh))
           1
           [("email", Js.JStr "alice@example.com");
            ("name", Js.JStr "Alice")]
           "Downtown" "Riverside Park" "2025-01-01 09:00" "3");
    try reflexivity; discriminate.
Defined.

Lemma issued_token_lifetime_witness :
  let req := request_of [("authorization", "Bearer " +:+ alice_token)] [] in
  authenticateToken cfg 88399 req
  = inr {| headers := headers req; body := body req;
           user := Some alice_claims |}
  ∧ authenticateToken cfg 88400 req
    = inl (Reply 403 (message "Invalid token")).
Proof.
  intros req.
  assert (Hne : alice_token ≠ "") by discriminate.
  assert (Hsign : Jwt.sign 1 (Some "alice@example.com") (JWT_SECRET cfg)
                    "24h" 2000 = Some alice_token) by reflexivity.
  assert (Hh : headers req !! "authorization"
               = Some ("Bearer " +:+ alice_token)) by reflexivity.
  assert (Hsplit : Js.split " " ("Bearer " +:+ alice_token) !! 1%nat
                   = Some alice_token) by reflexivity.
  split.
  - apply (proj1 (issued_token_lifetime cfg 1 (Some "alice@example.com")
                    2000 88399 alice_token ("Bearer " +:+ alice_token) req
                    Hsign Hh Hsplit Hne)).
    reflexivity.
  - apply (proj2 (issued_token_lifetime cfg 1 (Some "alice@example.com")
                    2000 88400 alice_token ("Bearer " +:+ alice_token) req
                    Hsign Hh Hsplit Hne)).
    discriminate.
Defined.

Lemma listing_statements_parameterised_witness :
  let plain : gmap string string := {["origin" := "Downtown"]} in
  let hostile : gmap string string :=
    {["origin" := "x' OR 1=1 --"]} in
  fst (carpool_rides_query plain) = fst (carpool_rides_query hostile)
  ∧ snd (carpool_rides_query hostile) = ["%x' OR 1=1 --%"]
  ∧ Sql.marks (fst (carpool_rides_query hostile)) = 1%nat.
Proof.
  intros plain hostile. split; [| split].
  - apply (proj1 (proj2 (listing_statements_parameterised plain hostile)));
      reflexivity.
  - reflexivity.
  - apply (proj1 (proj1 (listing_statements_parameterised hostile plain))).
Defined.

Lemma historical_sites_listing_witness :
  ∃ rows : list Site.row,
    get_api_historical_sites started_twice {["location" := "park"]}
    = Sql.Rows (Site.json <$> rows)
    ∧ StronglySorted Site.by_name rows
    ∧ rows ≡ₚ filter (λ r, sqlite_like "%park%" (Site.location r) = true)
                (Sites.rows started_twice).
Proof.
  destruct (historical_sites_listing started_twice {["location" := "park"]})
    as (rows & Hrows & Hsorted & _ & Hfiltered).
  exists rows. split; [exact Hrows |]. split; [exact Hsorted |].
  apply Hfiltered. reflexivity.
Defined.

Lemma seeding_adds_the_samples_again_witness :
  List.length (Sites.rows started_twice) = 10%nat
  ∧ NoDup (Site.id <$> Sites.rows started_twice).
Proof.
  split.
  - apply (proj2 (proj2 (seeding_adds_the_samples_again
                           "2025-01-01 08:00:00" Sites.empty)) 2%nat).
  - apply (proj1 (proj2 (seeding_adds_the_samples_again
                           "2025-01-02 08:00:00"
                           (Sites.seed "2025-01-01 08:00:00" Sites.empty)))).
    apply (proj1 (proj2 (seeding_adds_the_samples_again
                           "2025-01-01 08:00:00" Sites.empty))).
    apply NoDup_nil_2.
Defined.

Lemma rides_listing_shows_owned_rides_witness :
  ∃ rows,
    get_api_carpool_rides store {["destination" := "downtown"]}
    = Sql.Rows rows
    ∧ {| Listed.ride_row := evening; Listed.driver_name := "Alice";
         Listed.driver_phone := None |} ∈ rows
    ∧ Sorted Listed.by_departure rows.
Proof.
  destruct (rides_listing_shows_owned_rides store
              {["destination" := "downtown"]})
    as (rows & Hrows & Hin & Hsorted).
  exists rows. split; [exact Hrows |]. split.
  - apply Hin. split; [| reflexivity].
    exists evening, alice. split; [| split; [| split; reflexivity]].
    + apply list_elem_of_here.
    + apply list_elem_of_here.
  - apply Hsorted. intros a b. apply String.leb_total.
Defined.

Lemma plans_listing_shows_owned_plans_witness :
  ∃ rows,
    get_api_travel_plans store ∅ = Sql.Rows rows
    ∧ {| Listed.plan_row := trip; Listed.traveler_name := "Alice";
         Listed.traveler_phone := None |} ∈ rows
    ∧ Sorted Listed.by_start rows.
Proof.
  destruct (plans_listing_shows_owned_plans store ∅)
    as (rows & Hrows & Hin & Hsorted).
  exists rows. split; [exact Hrows |]. split.
  - apply Hin. split; [| reflexivity].
    exists trip, alice. split; [| split; [| split; reflexivity]].
    + apply list_elem_of_here.
    + apply list_elem_of_here.
  - apply Hsorted. intros a b. apply String.leb_total.
Defined.


Lemma header_token_is_second_segment_witness :
  let trailing :=
    request_of [("authorization", "Bearer " +:+ alice_token +:+ " extra")]
      [] in
  let doubled :=
    request_of [("authorization", "Bearer  " +:+ alice_token)] [] in
  authenticateToken cfg 3000 trailing
  = inr {| headers := headers trailing; body := body trailing;
           user := Some alice_claims |}
  ∧ authenticateToken cfg 3000 doubled
    = inl (Reply 401 (message "Access token required")).
Proof.
  intros trailing doubled.
  assert (Hne : alice_token ≠ "") by discriminate.
  assert (Hscheme : Js.includes " " "Bearer" = false) by reflexivity.
  split.
  - rewrite (proj1 (header_token_is_second_segment cfg 3000 trailing
                      "Bearer" alice_token "extra" Hscheme)
               eq_refl Hne eq_refl).
    reflexivity.
  - apply (proj2 (header_token_is_second_segment cfg 3000 doubled
                    "Bearer" alice_token alice_token Hscheme)).
    reflexivity.
Defined.

